(** * AWS pricing agent (ratio_aws/agents/pricing/runtime/run.py)

    A shallow embedding of the pricing agent's runtime: the region table,
    the filter normaliser ([_snake_to_camel],
    [normalize_filters_for_service]) and the [handler], together with the
    properties of the natural-language specification.

    Modelling conventions.
    - Python [str] is [string]; the text handled here (filter names, region
      codes, paths) is ASCII, characters above 127 are treated as caseless.
    - A Python [dict] is an insertion-ordered association list with distinct
      keys: assigning to a present key updates the entry in place, assigning
      to an absent key appends one.
    - The handler's effects (catalog queries, persisted files, warnings, the
      token generator) are threaded through a state-and-exception monad.
    - The catalog service, the JSON decoder, the token generator and the
      working directory are collaborators of the handler, gathered in the
      record [Env].  Failures raised by the collaborators themselves
      (network, throttling, storage) are not caught by the handler and are
      outside this model.  One entry of [api_calls] stands for one
      [paginate] call, that is one query pass with all its pages. *)

From Stdlib Require Import List String Ascii Bool Arith ZArith Lia.
Import ListNotations.
Local Open Scope string_scope.
Local Open Scope list_scope.

Set Implicit Arguments.

(** ** Python string primitives *)

Module PyStr.

Definition underscore : ascii := "_"%char.

(** [ch in s] for a one-character pattern. *)
Fixpoint contains (ch : ascii) (s : string) : bool :=
  match s with
  | EmptyString => false
  | String c rest => Ascii.eqb c ch || contains ch rest
  end.

(** [s.split(sep)] for a one-character separator: always at least one
    component, empty components are kept. *)
Fixpoint split (sep : ascii) (s : string) : list string :=
  match s with
  | EmptyString => [EmptyString]
  | String c rest =>
      if Ascii.eqb c sep then EmptyString :: split sep rest
      else match split sep rest with
           | [] => [String c EmptyString]
           | w :: ws => String c w :: ws
           end
  end.

(** [sep.join(parts)]. *)
Fixpoint join (sep : string) (parts : list string) : string :=
  match parts with
  | [] => EmptyString
  | [p] => p
  | p :: ps => p ++ sep ++ join sep ps
  end.

(** ["".join(parts)]. *)
Definition concat_all (parts : list string) : string :=
  fold_right append EmptyString parts.

Definition is_lower (c : ascii) : bool :=
  let n := nat_of_ascii c in ((97 <=? n) && (n <=? 122))%nat.

Definition is_upper (c : ascii) : bool :=
  let n := nat_of_ascii c in ((65 <=? n) && (n <=? 90))%nat.

Definition upper_char (c : ascii) : ascii :=
  if is_lower c then ascii_of_nat (nat_of_ascii c - 32) else c.

Definition lower_char (c : ascii) : ascii :=
  if is_upper c then ascii_of_nat (nat_of_ascii c + 32) else c.

Fixpoint lower (s : string) : string :=
  match s with
  | EmptyString => EmptyString
  | String c rest => String (lower_char c) (lower rest)
  end.

(** [s.capitalize()]: first character upper-cased, the rest lower-cased. *)
Definition capitalize (s : string) : string :=
  match s with
  | EmptyString => EmptyString
  | String c rest => String (upper_char c) (lower rest)
  end.

(** [s.startswith(ch)] and [s.endswith(ch)] for a one-character pattern. *)
Definition startswith (ch : ascii) (s : string) : bool :=
  match s with
  | EmptyString => false
  | String c _ => Ascii.eqb c ch
  end.

Fixpoint endswith (ch : ascii) (s : string) : bool :=
  match s with
  | EmptyString => false
  | String c EmptyString => Ascii.eqb c ch
  | String _ rest => endswith ch rest
  end.

(** [os.path.join(a, b)] on a POSIX system. *)
Definition os_path_join (a b : string) : string :=
  if startswith "/"%char b then b
  else if (String.eqb a EmptyString) || endswith "/"%char a then a ++ b
  else a ++ "/" ++ b.

End PyStr.

(** ** Python dictionaries with string keys *)

Module PyDict.

Section Dict.
Variable V : Type.

Definition dict := list (string * V).

Definition keys (d : dict) : list string := map fst d.

(** [d.get(k)] / [k in d] / [d[k]]. *)
Fixpoint get (d : dict) (k : string) : option V :=
  match d with
  | [] => None
  | (k', v) :: rest => if String.eqb k' k then Some v else get rest k
  end.

Definition mem (d : dict) (k : string) : bool :=
  match get d k with Some _ => true | None => false end.

(** [d[k] = v]: in-place update of a present key, append otherwise. *)
Fixpoint set (d : dict) (k : string) (v : V) : dict :=
  match d with
  | [] => [(k, v)]
  | (k', v') :: rest =>
      if String.eqb k' k then (k', v) :: rest
      else (k', v') :: set rest k v
  end.

(** [d.copy()]: a fresh dictionary with the same items. *)
Definition copy (d : dict) : dict := d.

(** The dictionary invariant: keys are pairwise distinct. *)
Definition wf (d : dict) : Prop := NoDup (keys d).

End Dict.

End PyDict.


(** ** JSON values and the data of the handler *)

Set Warnings "-register-all".

Inductive json : Type :=
| JNull
| JBool (b : bool)
| JNum (literal : string)
| JStr (s : string)
| JArr (items : list json)
| JObj (members : list (string * json)).

(** The event payload: [service_code] is required, an absent key is [None]. *)
Record Request : Type := {
  req_service_code : string;
  req_regions : option (list string);
  req_filters : option (PyDict.dict json);
  req_max_records : option Z;
  req_result_file_path : option string
}.

(** One entry of the [Filters] list of a catalog query. *)
Record ApiFilter : Type := {
  Type_ : string;
  Field : string;
  Value : json
}.

(** The keyword arguments of one [paginator.paginate] call. *)
Record Query : Type := {
  ServiceCode : string;
  Filters : list ApiFilter;
  MaxResults : Z
}.

(** A page of the catalog's answer: its [PriceList]. *)
Definition Page := list string.

(** [detailed_results]; [json.dumps] is kept structural. *)
Record Envelope : Type := {
  detail_service_code : string;
  detail_regions_queried : list string;
  detail_filters_applied : PyDict.dict json;
  detail_record_count : nat;
  detail_pricing_records : list json
}.

Record FileMetadata : Type := {
  meta_service_code : string;
  meta_regions : list string;
  meta_record_count : nat
}.

(** The keyword arguments of one [system.put_file] call. *)
Record PutFile : Type := {
  file_path : string;
  file_type : string;
  data : Envelope;
  metadata : FileMetadata
}.

(** The [response_body] handed to [system.success]. *)
Record Response : Type := {
  resp_pricing_records : list json;
  resp_result_file_path : string;
  resp_service_code : string;
  resp_regions_queried : list string;
  resp_record_count : nat;
  resp_filters_applied : PyDict.dict json
}.

(** What an invocation has done so far, oldest effect first. *)
Record World : Type := {
  api_calls : list Query;
  put_files : list PutFile;
  warnings : list string;
  uuid_draws : nat
}.

Inductive exn : Type :=
| PricingError (msg : string)
| IndexError
| TypeError.

(** ** The state-and-exception monad of the handler *)

Definition M (A : Type) : Type := World -> (exn + A) * World.

Definition ret {A} (a : A) : M A := fun w => (inr a, w).

Definition bind {A B} (m : M A) (k : A -> M B) : M B :=
  fun w =>
    match m w with
    | (inl e, w') => (inl e, w')
    | (inr a, w') => k a w'
    end.

Definition raise {A} (e : exn) : M A := fun w => (inl e, w).

Declare Scope py_scope.
Delimit Scope py_scope with py.
Notation "x <- m ;; k" := (bind m (fun x => k))
  (at level 61, m at next level, right associativity) : py_scope.
Notation "m ;;; k" := (bind m (fun _ => k))
  (at level 61, right associativity) : py_scope.
Local Open Scope py_scope.

(** [logging.warning(msg)]. *)
Definition log_warning (msg : string) : M unit :=
  fun w => (inr tt, {| api_calls := api_calls w; put_files := put_files w;
                       warnings := warnings w ++ [msg];
                       uuid_draws := uuid_draws w |}).

(** [system.put_file(...)]. *)
Definition put_file (f : PutFile) : M unit :=
  fun w => (inr tt, {| api_calls := api_calls w;
                       put_files := put_files w ++ [f];
                       warnings := warnings w;
                       uuid_draws := uuid_draws w |}).

(** [xs[i]]. *)
Definition index {A} (xs : list A) (i : nat) : M A :=
  match nth_error xs i with
  | Some x => ret x
  | None => raise IndexError
  end.

(** [obj[key] = value] on a decoded JSON value: only objects support it. *)
Definition setitem (obj : json) (key : string) (value : json) : M json :=
  match obj with
  | JObj members => ret (JObj (PyDict.set members key value))
  | _ => raise TypeError
  end.

(** ** The module run.py *)

Definition REGION_MAPPING : PyDict.dict string :=
  [ ("us-east-1", "US East (N. Virginia)");
    ("us-east-2", "US East (Ohio)");
    ("us-west-1", "US West (N. California)");
    ("us-west-2", "US West (Oregon)");
    ("eu-west-1", "Europe (Ireland)");
    ("eu-west-2", "Europe (London)");
    ("eu-west-3", "Europe (Paris)");
    ("eu-central-1", "Europe (Frankfurt)");
    ("eu-north-1", "Europe (Stockholm)");
    ("ap-southeast-1", "Asia Pacific (Singapore)");
    ("ap-southeast-2", "Asia Pacific (Sydney)");
    ("ap-northeast-1", "Asia Pacific (Tokyo)");
    ("ap-northeast-2", "Asia Pacific (Seoul)");
    ("ap-south-1", "Asia Pacific (Mumbai)");
    ("ca-central-1", "Canada (Central)");
    ("sa-east-1", "South America (Sao Paulo)") ].

Definition _snake_to_camel (snake_str : string) : string :=
  if negb (PyStr.contains PyStr.underscore snake_str) then snake_str
  else
    let components := PyStr.split PyStr.underscore snake_str in
    hd EmptyString components
    ++ PyStr.concat_all (map PyStr.capitalize (tl components)).

(** The loop of [normalize_filters_for_service] over [filters.items()]. *)
Fixpoint normalize_items (V : Type) (items : list (string * V))
    (normalized : PyDict.dict V) : PyDict.dict V :=
  match items with
  | [] => normalized
  | (key, value) :: rest =>
      let api_key := _snake_to_camel key in
      normalize_items rest (PyDict.set normalized api_key value)
  end.

(** [filters] is [None] for Python's [None]. *)
Definition normalize_filters_for_service (V : Type)
    (filters : option (PyDict.dict V)) : PyDict.dict V :=
  match filters with
  | None => []
  | Some [] => []
  | Some items => normalize_items items []
  end.

(** The collaborators of an invocation. *)
Record Env : Type := {
  (** [json.loads]: the decoded value, or the text of the
      [JSONDecodeError]. *)
  json_loads : string -> string + json;
  (** The catalog service: the pages the paginator yields for the [n]-th
      query pass (counted from the start of the world) with the given
      arguments. *)
  catalog : nat -> Query -> list Page;
  (** [str(uuid.uuid4())]: the [n]-th token the generator produces. *)
  uuid4 : nat -> string;
  (** [system.working_directory]. *)
  working_directory : string
}.

(** [paginator.paginate(...)]: one query pass. *)
Definition paginate (env : Env) (q : Query) : M (list Page) :=
  fun w => (inr (catalog env (List.length (api_calls w)) q),
            {| api_calls := api_calls w ++ [q];
               put_files := put_files w;
               warnings := warnings w;
               uuid_draws := uuid_draws w |}).

Definition draw_uuid4 (env : Env) : M string :=
  fun w => (inr (uuid4 env (uuid_draws w)),
            {| api_calls := api_calls w;
               put_files := put_files w;
               warnings := warnings w;
               uuid_draws := S (uuid_draws w) |}).

(** Lines 139-146: the region resolution loop. *)
Fixpoint resolve_regions (regions : list string)
    (region_display_names : list string) : M (list string) :=
  match regions with
  | [] => ret region_display_names
  | region :: rest =>
      match PyDict.get REGION_MAPPING region with
      | Some name => resolve_regions rest (region_display_names ++ [name])
      | None => raise (PricingError ("Unknown region: " ++ region)%string)
      end
  end.

(** Lines 165-172: the [Filters] argument built from [query_filters]. *)
Definition build_api_filters (query_filters : PyDict.dict json)
    : list ApiFilter :=
  map (fun kv => {| Type_ := "TERM_MATCH"; Field := fst kv;
                    Value := snd kv |}) query_filters.

(** Lines 186-199: the documents of one page. *)
Fixpoint parse_price_list (env : Env) (region_name : string)
    (price_list : list string)
    (region_records : list json) : M (list json) :=
  match price_list with
  | [] => ret region_records
  | price_list_str :: rest =>
      match json_loads env price_list_str with
      | inr price_data =>
          tagged <- setitem price_data "queryRegion" (JStr region_name) ;;
          parse_price_list env region_name rest (region_records ++ [tagged])
      | inl e =>
          log_warning ("Failed to parse pricing data: " ++ e)%string ;;;
          parse_price_list env region_name rest region_records
      end
  end.

(** Lines 185-199: every page of the iterator. *)
Fixpoint collect_pages (env : Env) (region_name : string)
    (page_iterator : list Page)
    (region_records : list json) : M (list json) :=
  match page_iterator with
  | [] => ret region_records
  | page :: rest =>
      region_records' <-
        parse_price_list env region_name page region_records ;;
      collect_pages env region_name rest region_records'
  end.

(** Lines 159-203: the per-region loop. *)
Fixpoint query_regions (env : Env) (service_code : string)
    (final_filters : PyDict.dict json) (max_records : Z)
    (regions_to_query : list string) (all_pricing_records : list json)
    : M (list json) :=
  match regions_to_query with
  | [] => ret all_pricing_records
  | region_name :: rest =>
      let query_filters :=
        PyDict.set (PyDict.copy final_filters) "location"
                   (JStr region_name) in
      let api_filters := build_api_filters query_filters in
      page_iterator <- paginate env {| ServiceCode := service_code;
                                       Filters := api_filters;
                                       MaxResults := max_records |} ;;
      region_records <- collect_pages env region_name page_iterator [] ;;
      query_regions env service_code final_filters max_records rest
                    (all_pricing_records ++ region_records)
  end.

(** Python truthiness of an optional string. *)
Definition truthy (s : option string) : bool :=
  match s with
  | None => false
  | Some EmptyString => false
  | Some _ => true
  end.

Definition handler (env : Env) (event : Request) : M Response :=
  let service_code := req_service_code event in
  let regions :=
    match req_regions event with Some r => r | None => ["us-east-1"] end in
  let user_filters :=
    match req_filters event with Some f => f | None => [] end in
  let max_records :=
    match req_max_records event with Some n => n | None => 50%Z end in
  let result_file_path := req_result_file_path event in
  let final_filters := normalize_filters_for_service (Some user_filters) in
  region_display_names <- resolve_regions regions [] ;;
  final_filters <-
    (if (List.length region_display_names =? 1)%nat then
       name <- index region_display_names 0 ;;
       ret (PyDict.set final_filters "location" (JStr name))
     else ret final_filters) ;;
  regions_to_query <-
    (if (1 <? List.length region_display_names)%nat
     then ret region_display_names
     else name <- index region_display_names 0 ;; ret [name]) ;;
  all_pricing_records <-
    query_regions env service_code final_filters max_records
                  regions_to_query [] ;;
  result_file_path <-
    (if negb (truthy result_file_path) then
       token <- draw_uuid4 env ;;
       ret (PyStr.os_path_join (working_directory env)
              ("aws_pricing_" ++ service_code ++ "_" ++ token
               ++ ".json")%string)
     else ret (match result_file_path with
               | Some p => p
               | None => EmptyString
               end)) ;;
  let detailed_results :=
    {| detail_service_code := service_code;
       detail_regions_queried := regions;
       detail_filters_applied := final_filters;
       detail_record_count := List.length all_pricing_records;
       detail_pricing_records := all_pricing_records |} in
  put_file {| file_path := result_file_path;
              file_type := "ratio::file";
              data := detailed_results;
              metadata :=
                {| meta_service_code := service_code;
                   meta_regions := regions;
                   meta_record_count :=
                     List.length all_pricing_records |} |} ;;;
  let summary_records :=
    if (10 <? List.length all_pricing_records)%nat
    then firstn 10 all_pricing_records
    else all_pricing_records in
  ret {| resp_pricing_records := summary_records;
         resp_result_file_path := result_file_path;
         resp_service_code := service_code;
         resp_regions_queried := regions;
         resp_record_count := List.length all_pricing_records;
         resp_filters_applied := final_filters |}.

(** *** Vocabulary of the specification

    The definitions below are not part of run.py: they name the notions
    the specification speaks about, and the theorems relate them to the
    code above. *)

(** A name without the separator of snake case. *)
Definition separator_free (s : string) : Prop :=
  PyStr.contains PyStr.underscore s = false.

(** The request parameters after the defaults of lines 115-119. *)
Definition regions_of (event : Request) : list string :=
  match req_regions event with Some r => r | None => ["us-east-1"] end.

Definition filters_of (event : Request) : PyDict.dict json :=
  match req_filters event with Some f => f | None => [] end.

Definition max_records_of (event : Request) : Z :=
  match req_max_records event with Some n => n | None => 50%Z end.

(** A region code of the static table, and its display name. *)
Definition known_region (region : string) : Prop :=
  PyDict.mem REGION_MAPPING region = true.

Definition display_name (region : string) : string :=
  match PyDict.get REGION_MAPPING region with
  | Some name => name
  | None => EmptyString
  end.

(** The first region code of a list that is absent from the table. *)
Definition first_unknown (regions : list string) : option string :=
  find (fun region => negb (PyDict.mem REGION_MAPPING region)) regions.

(** A well-formed document decodes to a JSON object; a malformed one
    does not decode. *)
Definition well_formed (env : Env) (doc : string) : Prop :=
  exists members, json_loads env doc = inr (JObj members).

Definition malformed (env : Env) (doc : string) : Prop :=
  exists e, json_loads env doc = inl e.

Definition is_document (env : Env) (doc : string) : bool :=
  match json_loads env doc with
  | inr (JObj _) => true
  | inr _ => false
  | inl _ => true
  end.

(** The record a document contributes when fetched under a region. *)
Definition tagged (env : Env) (region_name : string) (doc : string)
    : list json :=
  match json_loads env doc with
  | inr (JObj members) =>
      [JObj (PyDict.set members "queryRegion" (JStr region_name))]
  | _ => []
  end.

Definition tagged_records (env : Env) (region_name : string)
    (docs : list string)
    : list json :=
  flat_map (tagged env region_name) docs.

(** The warning a document causes. *)
Definition decode_warning (env : Env) (doc : string) : list string :=
  match json_loads env doc with
  | inl e => [("Failed to parse pricing data: " ++ e)%string]
  | inr _ => []
  end.

Definition decode_warnings (env : Env) (docs : list string) : list string :=
  flat_map (decode_warning env) docs.

(** The documents processed before the first one that decodes to
    something else than an object. *)
Fixpoint documents_prefix (env : Env) (docs : list string) : list string :=
  match docs with
  | [] => []
  | doc :: rest =>
      if is_document env doc then doc :: documents_prefix env rest else []
  end.

(** The filter set of a region's query: the given filters with the
    location pinned to the region's display name. *)
Definition pinned_filters (filters : PyDict.dict json)
    (region_name : string) : PyDict.dict json :=
  PyDict.set filters "location" (JStr region_name).

Definition region_query (service_code : string)
    (filters : PyDict.dict json) (max_records : Z) (region_name : string)
    : Query :=
  {| ServiceCode := service_code;
     Filters := build_api_filters (pinned_filters filters region_name);
     MaxResults := max_records |}.

(** The query passes of an invocation that starts after [n] earlier
    passes: the pass number and the display name of each region. *)
Definition passes (n : nat) (names : list string) : list (nat * string) :=
  combine (seq n (List.length names)) names.

(** All documents the catalog serves to a pass, page after page. *)
Definition fetched_documents (env : Env) (service_code : string)
    (filters : PyDict.dict json) (max_records : Z) (pass : nat * string)
    : list string :=
  List.concat (catalog env (fst pass)
            (region_query service_code filters max_records (snd pass))).

Definition region_records (env : Env) (service_code : string)
    (filters : PyDict.dict json) (max_records : Z) (pass : nat * string)
    : list json :=
  tagged_records env (snd pass)
    (fetched_documents env service_code filters max_records pass).

(** The filters the handler reports as applied. *)
Definition applied_filters (event : Request) : PyDict.dict json :=
  let normalized := normalize_filters_for_service (Some (filters_of event)) in
  match map display_name (regions_of event) with
  | [name] => PyDict.set normalized "location" (JStr name)
  | _ => normalized
  end.

(** The passes of an invocation started in world [w], with their
    documents and records. *)
Definition passes_of (event : Request) (w : World) : list (nat * string) :=
  passes (List.length (api_calls w)) (map display_name (regions_of event)).

(** The pages the catalog serves to a pass of the invocation. *)
Definition pages_of (env : Env) (event : Request) (pass : nat * string)
    : list Page :=
  catalog env (fst pass)
    (region_query (req_service_code event) (applied_filters event)
                  (max_records_of event) (snd pass)).

Definition documents_of (env : Env) (event : Request) (pass : nat * string)
    : list string :=
  fetched_documents env (req_service_code event) (applied_filters event)
                    (max_records_of event) pass.

Definition records_of (env : Env) (event : Request) (pass : nat * string)
    : list json :=
  region_records env (req_service_code event) (applied_filters event)
                 (max_records_of event) pass.

Definition aggregate (env : Env) (event : Request) (w : World) : list json :=
  List.concat (map (records_of env event) (passes_of event w)).

(** Every document served to the invocation is well-formed or
    malformed. *)
Definition serves_documents (env : Env) (event : Request) (w : World)
    : bool :=
  forallb (fun pass => forallb (is_document env) (documents_of env event pass))
          (passes_of event w).

(** The documents served to the invocation, over all passes and pages, and
    the test for the malformed ones. *)
Definition served_documents (env : Env) (event : Request) (w : World)
    : list string :=
  flat_map (documents_of env event) (passes_of event w).

Definition is_malformed (env : Env) (doc : string) : bool :=
  match json_loads env doc with
  | inl _ => true
  | inr _ => false
  end.

(** The output path of the invocation. *)
Definition generated_path (env : Env) (event : Request) (w : World)
    : string :=
  PyStr.os_path_join (working_directory env)
    ("aws_pricing_" ++ req_service_code event ++ "_"
     ++ uuid4 env (uuid_draws w) ++ ".json")%string.

Definition output_path (env : Env) (event : Request) (w : World)
    : string :=
  match req_result_file_path event with
  | Some (String c p) => String c p
  | _ => generated_path env event w
  end.

(** What a successful invocation started in world [w] logs, persists,
    answers and leaves behind. *)
Definition logged_warnings (env : Env) (event : Request) (w : World)
    : list string :=
  flat_map (fun pass => decode_warnings env (documents_of env event pass))
           (passes_of event w).

Definition queries_of (event : Request) : list Query :=
  map (region_query (req_service_code event) (applied_filters event)
                    (max_records_of event))
      (map display_name (regions_of event)).

Definition persisted_file (env : Env) (event : Request) (w : World)
    : PutFile :=
  {| file_path := output_path env event w;
     file_type := "ratio::file";
     data :=
       {| detail_service_code := req_service_code event;
          detail_regions_queried := regions_of event;
          detail_filters_applied := applied_filters event;
          detail_record_count := List.length (aggregate env event w);
          detail_pricing_records := aggregate env event w |};
     metadata :=
       {| meta_service_code := req_service_code event;
          meta_regions := regions_of event;
          meta_record_count := List.length (aggregate env event w) |} |}.

Definition success_response (env : Env) (event : Request) (w : World)
    : Response :=
  {| resp_pricing_records := firstn 10 (aggregate env event w);
     resp_result_file_path := output_path env event w;
     resp_service_code := req_service_code event;
     resp_regions_queried := regions_of event;
     resp_record_count := List.length (aggregate env event w);
     resp_filters_applied := applied_filters event |}.

Definition final_world (env : Env) (event : Request) (w : World) : World :=
  {| api_calls := api_calls w ++ queries_of event;
     put_files := put_files w ++ [persisted_file env event w];
     warnings := warnings w ++ logged_warnings env event w;
     uuid_draws :=
       if truthy (req_result_file_path event) then uuid_draws w
       else S (uuid_draws w) |}.

(** World updates, for stating what an invocation leaves behind. *)
Definition add_warnings (w : World) (msgs : list string) : World :=
  {| api_calls := api_calls w; put_files := put_files w;
     warnings := warnings w ++ msgs; uuid_draws := uuid_draws w |}.

Definition add_calls (w : World) (queries : list Query) : World :=
  {| api_calls := api_calls w ++ queries; put_files := put_files w;
     warnings := warnings w; uuid_draws := uuid_draws w |}.

(** ** A sample environment

    Used by the examples: a decoder that knows a few texts and takes every
    other text as undecodable, a catalog that serves two pages to the first
    pass and one page to the others. *)

Definition dq : string := String (ascii_of_nat 34) EmptyString.

(** The text of a JSON object with one member [sku]. *)
Definition sku_doc (sku : string) : string :=
  ("{" ++ dq ++ "sku" ++ dq ++ ": " ++ dq ++ sku ++ dq ++ "}")%string.

Definition sample_loads (doc : string) : string + json :=
  if String.eqb doc (sku_doc "A1") then inr (JObj [("sku", JStr "A1")])
  else if String.eqb doc (sku_doc "B2") then inr (JObj [("sku", JStr "B2")])
  else if String.eqb doc "{}" then inr (JObj [])
  else if String.eqb doc "5" then inr (JNum "5")
  else inl "Expecting value: line 1 column 1 (char 0)".

Definition sample_catalog (n : nat) (q : Query) : list Page :=
  match n with
  | 0 => [[sku_doc "A1"; "not json"]; [sku_doc "B2"]]
  | _ => [[sku_doc "B2"]]
  end.

Definition sample_env : Env :=
  {| json_loads := sample_loads;
     catalog := sample_catalog;
     uuid4 := fun _ => "2f1e4c6a-9b7d-4e21-8c3f-5a6b7c8d9e0f";
     working_directory := "/work" |}.

(** An environment whose catalog answers every pass with two full pages:
    each holds as many documents as the query's [MaxResults] allows. *)
Definition bulk_env : Env :=
  {| json_loads := sample_loads;
     catalog := fun _ q =>
                  let page := repeat "{}" (Z.to_nat (MaxResults q)) in
                  [page; page];
     uuid4 := fun _ => "7c9e6679-7425-40de-944b-e07fc1f90ae7";
     working_directory := "/work/" |}.

Definition bulk_event : Request :=
  {| req_service_code := "AmazonS3";
     req_regions := Some ["us-east-1"];
     req_filters := None;
     req_max_records := Some 6%Z;
     req_result_file_path := Some "/out/s3.json" |}.

Definition fresh_world : World :=
  {| api_calls := []; put_files := []; warnings := []; uuid_draws := 0 |}.

Definition sample_event (regions : option (list string))
    (filters : option (PyDict.dict json)) : Request :=
  {| req_service_code := "AmazonEC2";
     req_regions := regions;
     req_filters := filters;
     req_max_records := None;
     req_result_file_path := None |}.


(** The key conversion applied to the items of a mapping, entry by entry. *)
Definition convert_items (V : Type) (items : list (string * V))
    : list (string * V) :=
  map (fun kv => (_snake_to_camel (fst kv), snd kv)) items.

(** An environment whose catalog serves a page with a JSON number between
    two objects. *)
Definition scalar_env : Env :=
  {| json_loads := sample_loads;
     catalog := fun _ _ => [["{}"; "5"; "{}"]];
     uuid4 := fun _ => "0b6f3a52-1c8e-4d17-9a40-6e2d5f7c8b91";
     working_directory := "/work" |}.

(** * Properties *)

Unset Implicit Arguments.

(** ** Strings *)
Module PyStrFacts.
Import PyStr.

Lemma contains_app (ch : ascii) (a b : string) :
  contains ch (a ++ b)%string = contains ch a || contains ch b.
Proof.
  induction a as [|c a IH]; simpl; [reflexivity|].
  now rewrite IH, orb_assoc.
Qed.

Lemma split_not_nil (sep : ascii) (s : string) : split sep s <> [].
Proof.
  induction s as [|c s IH]; simpl; [discriminate|].
  destruct (Ascii.eqb c sep); [discriminate|].
  destruct (split sep s); [contradiction|discriminate].
Qed.

Lemma split_without_sep (sep : ascii) (s : string) :
  contains sep s = false -> split sep s = [s].
Proof.
  induction s as [|c s IH]; simpl; [reflexivity|].
  intros H. apply orb_false_iff in H as [Hc Hs].
  rewrite Hc, (IH Hs). reflexivity.
Qed.

Lemma split_components_free (sep : ascii) (s : string) :
  Forall (fun w => contains sep w = false) (split sep s).
Proof.
  induction s as [|c s IH]; simpl.
  - constructor; [reflexivity|constructor].
  - destruct (Ascii.eqb c sep) eqn:Hc.
    + constructor; [reflexivity|exact IH].
    + destruct (split sep s) as [|w ws]; inversion IH; subst.
      * constructor; simpl; [now rewrite Hc|constructor].
      * constructor; simpl; [now rewrite Hc|assumption].
Qed.

Lemma split_app_sep (sep : ascii) (p rest : string) :
  contains sep p = false ->
  split sep (p ++ String sep rest)%string = p :: split sep rest.
Proof.
  induction p as [|c p IH]; simpl; intros H.
  - now rewrite Ascii.eqb_refl.
  - apply orb_false_iff in H as [Hc Hp].
    now rewrite Hc, (IH Hp).
Qed.

Lemma split_join (sep : ascii) (parts : list string) :
  parts <> [] ->
  Forall (fun w => contains sep w = false) parts ->
  split sep (join (String sep EmptyString) parts) = parts.
Proof.
  induction parts as [|p ps IH]; [congruence|]. intros _ Hall.
  inversion Hall as [|? ? Hp Hps]; subst.
  destruct ps as [|q qs].
  - simpl. now apply split_without_sep.
  - change (join (String sep EmptyString) (p :: q :: qs))
      with (p ++ String sep (join (String sep EmptyString) (q :: qs)))%string.
    rewrite split_app_sep by assumption.
    f_equal. apply IH; [discriminate|assumption].
Qed.

Lemma join_contains_sep (sep : ascii) (p q : string) (qs : list string) :
  contains sep (join (String sep EmptyString) (p :: q :: qs)) = true.
Proof.
  change (join (String sep EmptyString) (p :: q :: qs))
    with (p ++ String sep (join (String sep EmptyString) (q :: qs)))%string.
  rewrite contains_app. simpl. rewrite Ascii.eqb_refl.
  now rewrite orb_true_r.
Qed.

Lemma upper_char_underscore (c : ascii) :
  Ascii.eqb (upper_char c) underscore = Ascii.eqb c underscore.
Proof.
  destruct c as [[] [] [] [] [] [] [] []]; reflexivity.
Qed.

Lemma lower_char_underscore (c : ascii) :
  Ascii.eqb (lower_char c) underscore = Ascii.eqb c underscore.
Proof.
  destruct c as [[] [] [] [] [] [] [] []]; reflexivity.
Qed.

Lemma lower_underscore (s : string) :
  contains underscore (lower s) = contains underscore s.
Proof.
  induction s as [|c s IH]; simpl; [reflexivity|].
  now rewrite lower_char_underscore, IH.
Qed.

Lemma capitalize_underscore (s : string) :
  contains underscore (capitalize s) = contains underscore s.
Proof.
  destruct s as [|c s]; simpl; [reflexivity|].
  now rewrite upper_char_underscore, lower_underscore.
Qed.

Lemma concat_all_free (ch : ascii) (parts : list string) :
  Forall (fun w => contains ch w = false) parts ->
  contains ch (concat_all parts) = false.
Proof.
  induction 1 as [|p ps Hp _ IH]; simpl; [reflexivity|].
  now rewrite contains_app, Hp, IH.
Qed.

End PyStrFacts.

(** ** Dictionaries *)

Module PyDictFacts.
Import PyDict.

Section Facts.
Variable V : Type.
Implicit Types (d : dict V) (k : string) (v : V).

Lemma get_set_same d k v : get (set d k v) k = Some v.
Proof.
  induction d as [|[k' v'] d IH]; simpl.
  - now rewrite String.eqb_refl.
  - destruct (String.eqb k' k) eqn:E; simpl; rewrite E; auto.
Qed.

Lemma get_set_other d k k' v : k <> k' -> get (set d k v) k' = get d k'.
Proof.
  intros Hne. induction d as [|[k0 v0] d IH]; simpl.
  - destruct (String.eqb_spec k k'); congruence.
  - destruct (String.eqb_spec k0 k) as [->|]; simpl.
    + destruct (String.eqb_spec k k'); congruence.
    + now rewrite IH.
Qed.

Lemma set_absent d k v : ~ In k (keys d) -> set d k v = d ++ [(k, v)].
Proof.
  induction d as [|[k0 v0] d IH]; simpl; intros Hn; [reflexivity|].
  destruct (String.eqb_spec k0 k) as [->|Hne]; [tauto|].
  rewrite IH; tauto.
Qed.

Lemma keys_set d k v :
  forall k', In k' (keys (set d k v)) <-> k' = k \/ In k' (keys d).
Proof.
  intros k'. induction d as [|[k0 v0] d IH]; simpl.
  - intuition congruence.
  - destruct (String.eqb_spec k0 k) as [->|Hne]; simpl.
    + intuition congruence.
    + rewrite IH. tauto.
Qed.

Lemma set_set d k v v' : set (set d k v) k v' = set d k v'.
Proof.
  induction d as [|[k0 v0] d IH]; simpl.
  - now rewrite String.eqb_refl.
  - destruct (String.eqb k0 k) eqn:E; simpl; rewrite E; [reflexivity|].
    now rewrite IH.
Qed.

Lemma keys_set_present d k v : In k (keys d) -> keys (set d k v) = keys d.
Proof.
  induction d as [|[k0 v0] d IH]; simpl; [tauto|].
  destruct (String.eqb_spec k0 k) as [->|Hne]; simpl; [reflexivity|].
  intros [?|Hin]; [congruence|]. now rewrite IH.
Qed.

Lemma wf_set d k v : wf d -> wf (set d k v).
Proof.
  unfold wf. intros Hwf.
  destruct (in_dec string_dec k (keys d)) as [Hin|Hout].
  - now rewrite keys_set_present.
  - rewrite set_absent by assumption. unfold keys.
    rewrite map_app. simpl.
    apply NoDup_app; [assumption|repeat constructor; simpl; tauto|].
    intros x Hx [<-|[]]. contradiction.
Qed.

End Facts.
End PyDictFacts.

(** ** The key conversion *)

Lemma snake_to_camel_fixed (k : string) :
  separator_free k -> _snake_to_camel k = k.
Proof. unfold separator_free, _snake_to_camel. now intros ->. Qed.

Lemma snake_to_camel_segments (first : string) (rest : list string) :
  rest <> [] ->
  Forall separator_free (first :: rest) ->
  _snake_to_camel (PyStr.join "_" (first :: rest))
  = (first ++ PyStr.concat_all (map PyStr.capitalize rest))%string.
Proof.
  intros Hrest Hfree. unfold _snake_to_camel.
  destruct rest as [|q qs]; [congruence|].
  change "_" with (String PyStr.underscore EmptyString).
  rewrite PyStrFacts.join_contains_sep. simpl negb. cbv iota.
  rewrite PyStrFacts.split_join; [reflexivity|discriminate|exact Hfree].
Qed.

Lemma snake_to_camel_free (k : string) : separator_free (_snake_to_camel k).
Proof.
  unfold separator_free, _snake_to_camel.
  destruct (PyStr.contains PyStr.underscore k) eqn:E; simpl; [|exact E].
  pose proof (PyStrFacts.split_components_free PyStr.underscore k) as Hall.
  pose proof (PyStrFacts.split_not_nil PyStr.underscore k) as Hne.
  destruct (PyStr.split PyStr.underscore k) as [|c cs]; [congruence|].
  inversion Hall as [|? ? Hc Hcs]; subst. simpl.
  rewrite PyStrFacts.contains_app, Hc. simpl.
  apply PyStrFacts.concat_all_free.
  rewrite Forall_map. eapply Forall_impl; [|exact Hcs].
  intros w Hw. simpl. now rewrite PyStrFacts.capitalize_underscore.
Qed.

Section NormalizeFacts.
Variable V : Type.
Implicit Types (d acc : PyDict.dict V) (items : list (string * V)).

Lemma normalize_items_app items1 items2 acc :
  normalize_items (items1 ++ items2) acc
  = normalize_items items2 (normalize_items items1 acc).
Proof.
  revert acc. induction items1 as [|[k v] items1 IH]; simpl; auto.
Qed.

Lemma normalize_items_get_other items acc (name : string) :
  (forall k, In k (PyDict.keys items) -> _snake_to_camel k <> name) ->
  PyDict.get (normalize_items items acc) name = PyDict.get acc name.
Proof.
  revert acc. induction items as [|[k v] items IH]; simpl; intros acc H;
    [reflexivity|].
  rewrite IH by auto.
  apply PyDictFacts.get_set_other. auto.
Qed.

Lemma normalize_items_keys items acc (name : string) :
  In name (PyDict.keys (normalize_items items acc)) <->
  In name (PyDict.keys acc)
  \/ exists k, In k (PyDict.keys items) /\ name = _snake_to_camel k.
Proof.
  revert acc. induction items as [|[k v] items IH]; simpl; intros acc.
  - split; [tauto|]. intros [H|(k & [] & _)]. exact H.
  - rewrite IH, PyDictFacts.keys_set. split.
    + intros [[->|H]|(k' & Hk' & ->)]; eauto.
    + intros [H|(k' & [<-|Hk'] & ->)]; eauto.
Qed.

Lemma normalize_items_wf items acc :
  PyDict.wf acc -> PyDict.wf (normalize_items items acc).
Proof.
  revert acc. induction items as [|[k v] items IH]; simpl; intros acc H;
    [exact H|].
  apply IH. now apply PyDictFacts.wf_set.
Qed.

Lemma normalize_items_fixed d acc :
  PyDict.wf (acc ++ d) ->
  Forall separator_free (PyDict.keys d) ->
  normalize_items d acc = acc ++ d.
Proof.
  revert acc. induction d as [|[k v] d IH]; simpl; intros acc Hwf Hfree.
  - now rewrite app_nil_r.
  - inversion Hfree as [|? ? Hk Hd]; subst.
    rewrite (snake_to_camel_fixed _ Hk).
    assert (Hout : ~ In k (PyDict.keys acc)).
    { unfold PyDict.wf, PyDict.keys in Hwf. rewrite map_app in Hwf.
      simpl in Hwf. apply NoDup_remove_2 in Hwf.
      intros Hin. apply Hwf. apply in_or_app. now left. }
    rewrite PyDictFacts.set_absent by assumption.
    change (acc ++ (k, v) :: d) with (acc ++ [(k, v)] ++ d) in *.
    rewrite app_assoc in *. now apply IH.
Qed.

Lemma normalize_keys_free (filters : option (PyDict.dict V)) :
  Forall separator_free (PyDict.keys (normalize_filters_for_service filters)).
Proof.
  apply Forall_forall. intros name Hin.
  destruct filters as [[|kv items]|]; simpl in Hin; try contradiction.
  apply (normalize_items_keys (kv :: items) []) in Hin.
  destruct Hin as [[]|(k & _ & ->)]. apply snake_to_camel_free.
Qed.

Lemma normalize_wf (filters : option (PyDict.dict V)) :
  PyDict.wf (normalize_filters_for_service filters).
Proof.
  destruct filters as [[|kv items]|]; simpl; try constructor.
  destruct kv as [k v].
  change (PyDict.wf (normalize_items ((k, v) :: items) [])).
  apply normalize_items_wf. constructor.
Qed.

Lemma normalize_some (d : PyDict.dict V) :
  normalize_filters_for_service (Some d) = normalize_items d [].
Proof. destruct d; reflexivity. Qed.

End NormalizeFacts.


(** ** The monad and the world *)

Lemma add_warnings_nil (w : World) : add_warnings w [] = w.
Proof. destruct w; unfold add_warnings; simpl. now rewrite app_nil_r. Qed.

Lemma add_warnings_app (w : World) (a b : list string) :
  add_warnings (add_warnings w a) b = add_warnings w (a ++ b).
Proof. unfold add_warnings; simpl. now rewrite app_assoc. Qed.

Lemma add_calls_nil (w : World) : add_calls w [] = w.
Proof. destruct w; unfold add_calls; simpl. now rewrite app_nil_r. Qed.

Lemma bind_ok {A B} (m : M A) (k : A -> M B) (w w1 : World) (a : A) :
  m w = (inr a, w1) -> bind m k w = k a w1.
Proof. unfold bind. now intros ->. Qed.

Lemma bind_fail {A B} (m : M A) (k : A -> M B) (w w1 : World) (e : exn) :
  m w = (inl e, w1) -> bind m k w = (inl e, w1).
Proof. unfold bind. now intros ->. Qed.

(** ** Region resolution *)

Lemma first_unknown_none (regions : list string) :
  first_unknown regions = None <-> Forall known_region regions.
Proof.
  unfold first_unknown, known_region. induction regions as [|r rs IH]; simpl.
  - split; [constructor|reflexivity].
  - destruct (PyDict.mem REGION_MAPPING r) eqn:E; simpl.
    + rewrite IH. split; [now constructor|now inversion 1].
    + split; [discriminate|]. inversion 1; congruence.
Qed.

Lemma first_unknown_some (regions : list string) (region : string) :
  first_unknown regions = Some region ->
  In region regions /\ PyDict.get REGION_MAPPING region = None.
Proof.
  unfold first_unknown. intros H. apply find_some in H as [Hin Hmem].
  split; [exact Hin|]. unfold PyDict.mem in Hmem.
  destruct (PyDict.get REGION_MAPPING region); [discriminate|reflexivity].
Qed.

Lemma unknown_region_found (regions : list string) :
  (exists region, In region regions
                  /\ PyDict.get REGION_MAPPING region = None) ->
  exists region, first_unknown regions = Some region.
Proof.
  intros (r & Hin & Hget).
  destruct (first_unknown regions) as [r'|] eqn:E; [now exists r'|].
  unfold first_unknown in E.
  apply (find_none _ _ E) in Hin. unfold PyDict.mem in Hin.
  rewrite Hget in Hin. discriminate.
Qed.

Lemma resolve_regions_spec (regions acc : list string) (w : World) :
  resolve_regions regions acc w
  = match first_unknown regions with
    | Some region =>
        (inl (PricingError ("Unknown region: " ++ region)%string), w)
    | None => (inr (acc ++ map display_name regions), w)
    end.
Proof.
  revert acc. unfold first_unknown.
  induction regions as [|r rs IH]; intros acc; cbn [resolve_regions find map].
  - now rewrite app_nil_r.
  - unfold PyDict.mem at 1. unfold display_name at 1.
    destruct (PyDict.get REGION_MAPPING r) as [name|]; cbn [negb];
      [|reflexivity].
    rewrite IH. destruct (find _ rs); [reflexivity|].
    now rewrite <- app_assoc.
Qed.

(** ** The query loop *)

Section QueryFacts.
Variable env : Env.

Lemma documents_prefix_all (docs : list string) :
  forallb (is_document env) docs = true -> documents_prefix env docs = docs.
Proof.
  induction docs as [|doc docs IH]; simpl; [reflexivity|].
  intros H. apply andb_true_iff in H as [-> H]. now rewrite IH.
Qed.

(** The documents of a page: what the loop returns and what it logs. *)
Lemma parse_price_list_spec (region_name : string) (docs : list string)
    (acc : list json) (w : World) :
  parse_price_list env region_name docs acc w
  = (if forallb (is_document env) docs
     then inr (acc ++ tagged_records env region_name docs)
     else inl TypeError,
     add_warnings w (decode_warnings env (documents_prefix env docs))).
Proof.
  revert acc w. induction docs as [|doc docs IH]; intros acc w.
  - simpl. now rewrite app_nil_r, add_warnings_nil.
  - assert (Hdoc : is_document env doc
                   = match json_loads env doc with
                     | inr (JObj _) | inl _ => true
                     | inr _ => false
                     end) by reflexivity.
    assert (Htag : tagged_records env region_name (doc :: docs)
                   = tagged env region_name doc
                     ++ tagged_records env region_name docs) by reflexivity.
    cbn [parse_price_list documents_prefix forallb]. rewrite Htag.
    unfold bind, tagged.
    destruct (json_loads env doc) as [e|[| | | | |members]] eqn:E;
      rewrite Hdoc; try (cbn; now rewrite add_warnings_nil).
    + cbn [log_warning andb app]. rewrite IH.
      cbn [decode_warnings flat_map]. unfold decode_warning at 1.
      rewrite E. fold (decode_warnings env (documents_prefix env docs)).
      now rewrite <- add_warnings_app.
    + cbn [setitem ret andb]. rewrite IH.
      cbn [decode_warnings flat_map]. unfold decode_warning at 1.
      rewrite E. cbn [app]. now rewrite <- app_assoc.
Qed.

Lemma documents_prefix_app_ok (docs1 docs2 : list string) :
  forallb (is_document env) docs1 = true ->
  documents_prefix env (docs1 ++ docs2) = docs1 ++ documents_prefix env docs2.
Proof.
  induction docs1 as [|doc docs1 IH]; simpl; [reflexivity|].
  intros H. apply andb_true_iff in H as [-> H]. now rewrite IH.
Qed.

Lemma documents_prefix_app_bad (docs1 docs2 : list string) :
  forallb (is_document env) docs1 = false ->
  documents_prefix env (docs1 ++ docs2) = documents_prefix env docs1.
Proof.
  induction docs1 as [|doc docs1 IH]; simpl; [discriminate|].
  destruct (is_document env doc); simpl; [|reflexivity].
  intros H. now rewrite IH.
Qed.

Lemma tagged_records_app (region_name : string) (docs1 docs2 : list string) :
  tagged_records env region_name (docs1 ++ docs2)
  = tagged_records env region_name docs1
    ++ tagged_records env region_name docs2.
Proof. apply flat_map_app. Qed.

Lemma decode_warnings_app (docs1 docs2 : list string) :
  decode_warnings env (docs1 ++ docs2)
  = decode_warnings env docs1 ++ decode_warnings env docs2.
Proof. apply flat_map_app. Qed.

(** The pages of a pass are processed as one run of documents. *)
Lemma collect_pages_spec (region_name : string) (pages : list Page)
    (acc : list json) (w : World) :
  collect_pages env region_name pages acc w
  = (if forallb (is_document env) (List.concat pages)
     then inr (acc ++ tagged_records env region_name (List.concat pages))
     else inl TypeError,
     add_warnings w
       (decode_warnings env (documents_prefix env (List.concat pages)))).
Proof.
  revert acc w. induction pages as [|page pages IH]; intros acc w.
  - simpl. now rewrite app_nil_r, add_warnings_nil.
  - cbn [collect_pages List.concat]. unfold bind.
    rewrite parse_price_list_spec, forallb_app.
    destruct (forallb (is_document env) page) eqn:Hpage; cbn [andb].
    + rewrite IH, documents_prefix_app_ok, (documents_prefix_all _ Hpage),
        tagged_records_app, decode_warnings_app, add_warnings_app, app_assoc
        by assumption.
      reflexivity.
    + now rewrite documents_prefix_app_bad.
Qed.

Lemma passes_cons (n : nat) (name : string) (names : list string) :
  passes n (name :: names) = (n, name) :: passes (S n) names.
Proof. reflexivity. Qed.

Lemma passes_names (n : nat) (names : list string) :
  map snd (passes n names) = names.
Proof.
  revert n. induction names as [|name names IH]; intros n; [reflexivity|].
  rewrite passes_cons. simpl. now rewrite IH.
Qed.

Section Regions.
Variables (service_code : string) (filters : PyDict.dict json)
          (max_records : Z).

(** When every served document is well-formed or malformed, the loop makes
    one pass per region and returns the records of the passes in order. *)
Lemma query_regions_ok (names : list string) (acc : list json) (w : World) :
  forallb (fun pass =>
             forallb (is_document env)
               (fetched_documents env service_code filters max_records pass))
          (passes (List.length (api_calls w)) names) = true ->
  query_regions env service_code filters max_records names acc w
  = (inr (acc ++ List.concat
                   (map (region_records env service_code filters max_records)
                        (passes (List.length (api_calls w)) names))),
     add_warnings
       (add_calls w (map (region_query service_code filters max_records)
                         names))
       (flat_map (fun pass =>
                    decode_warnings env
                      (fetched_documents env service_code filters max_records
                                         pass))
                 (passes (List.length (api_calls w)) names))).
Proof.
  revert acc w. induction names as [|name names IH]; intros acc w Hok.
  - simpl. now rewrite app_nil_r, add_calls_nil, add_warnings_nil.
  - rewrite passes_cons in *. cbn [forallb map flat_map List.concat] in *.
    apply andb_true_iff in Hok as [Hpass Hrest].
    cbn [query_regions]. unfold bind at 1. cbn [paginate].
    unfold bind at 1. rewrite collect_pages_spec.
    unfold fetched_documents in Hpass at 1. cbn [fst snd] in Hpass.
    unfold PyDict.copy.
    fold (pinned_filters filters name).
    fold (region_query service_code filters max_records name).
    rewrite Hpass, (documents_prefix_all _ Hpass).
    rewrite IH.
    + cbn [api_calls add_warnings]. rewrite length_app, Nat.add_1_r.
      f_equal.
      * f_equal. cbn [app]. now rewrite <- app_assoc.
      * unfold add_warnings, add_calls. cbn.
        now rewrite <- !app_assoc.
    + cbn [api_calls add_warnings]. now rewrite length_app, Nat.add_1_r.
Qed.

(** A document that decodes to something else than an object stops the
    loop with a [TypeError]; nothing has been persisted. *)
Lemma query_regions_bad (names : list string) (acc : list json) (w : World) :
  forallb (fun pass =>
             forallb (is_document env)
               (fetched_documents env service_code filters max_records pass))
          (passes (List.length (api_calls w)) names) = false ->
  exists w',
    query_regions env service_code filters max_records names acc w
    = (inl TypeError, w')
    /\ put_files w' = put_files w /\ uuid_draws w' = uuid_draws w.
Proof.
  revert acc w. induction names as [|name names IH]; intros acc w Hbad.
  - discriminate.
  - rewrite passes_cons in Hbad. cbn [forallb] in Hbad.
    cbn [query_regions]. unfold bind at 1. cbn [paginate].
    unfold bind at 1. rewrite collect_pages_spec.
    unfold fetched_documents in Hbad at 1. cbn [fst snd] in Hbad.
    unfold PyDict.copy.
    fold (pinned_filters filters name).
    fold (region_query service_code filters max_records name).
    destruct (forallb (is_document env) (List.concat _)) eqn:Hpass.
    + cbn [andb] in Hbad.
      edestruct IH as (w' & -> & Hfiles & Hdraws).
      * cbn [api_calls add_warnings]. rewrite length_app, Nat.add_1_r.
        exact Hbad.
      * exists w'. now rewrite Hfiles, Hdraws.
    + eexists. split; [reflexivity|]. now split.
Qed.

End Regions.
End QueryFacts.

(** ** The handler *)

Section HandlerFacts.
Variable env : Env.

Lemma firstn_summary {A} (records : list A) :
  (if (10 <? List.length records)%nat then firstn 10 records else records)
  = firstn 10 records.
Proof.
  destruct (Nat.ltb_spec 10 (List.length records)); [reflexivity|].
  symmetry. now apply firstn_all2.
Qed.

(** An unknown region code stops the invocation where it started. *)
Lemma handler_unknown_region (event : Request) (w : World) (region : string) :
  first_unknown (regions_of event) = Some region ->
  handler env event w
  = (inl (PricingError ("Unknown region: " ++ region)%string), w).
Proof.
  intros H. unfold handler. fold (regions_of event).
  apply bind_fail. now rewrite resolve_regions_spec, H.
Qed.

(** An empty region list reaches the unguarded index. *)
Lemma handler_no_region (event : Request) (w : World) :
  regions_of event = [] -> handler env event w = (inl IndexError, w).
Proof.
  intros H. unfold handler. fold (regions_of event). rewrite H.
  reflexivity.
Qed.

(** Lines 149-150: the location is merged only for a single region. *)
Lemma merge_location_spec (names : list string) (normalized : PyDict.dict json)
    (w : World) :
  (if (List.length names =? 1)%nat
   then name <- index names 0 ;;
        ret (PyDict.set normalized "location" (JStr name))
   else ret normalized) w
  = (inr match names with
         | [name] => PyDict.set normalized "location" (JStr name)
         | _ => normalized
         end, w).
Proof. destruct names as [|n1 [|n2 names]]; reflexivity. Qed.

(** Line 157: with at least one name, the regions to query are the names. *)
Lemma regions_to_query_spec (names : list string) (w : World) :
  names <> [] ->
  (if (1 <? List.length names)%nat then ret names
   else name <- index names 0 ;; ret [name]) w
  = (inr names, w).
Proof. destruct names as [|n1 [|n2 names]]; [congruence| |]; reflexivity. Qed.

(** Lines 206-210: the output path. *)
Lemma result_file_path_spec (event : Request) (w : World) :
  (if negb (truthy (req_result_file_path event))
   then token <- draw_uuid4 env ;;
        ret (PyStr.os_path_join (working_directory env)
               ("aws_pricing_" ++ req_service_code event ++ "_" ++ token
                ++ ".json")%string)
   else ret match req_result_file_path event with
            | Some p => p
            | None => EmptyString
            end) w
  = (inr (output_path env event w),
     {| api_calls := api_calls w; put_files := put_files w;
        warnings := warnings w;
        uuid_draws := if truthy (req_result_file_path event)
                      then uuid_draws w else S (uuid_draws w) |}).
Proof.
  unfold output_path, generated_path.
  destruct (req_result_file_path event) as [[|c p]|]; cbn; try reflexivity.
  now destruct w.
Qed.

Lemma handler_success (event : Request) (w : World) :
  Forall known_region (regions_of event) ->
  regions_of event <> [] ->
  serves_documents env event w = true ->
  handler env event w
  = (inr (success_response env event w), final_world env event w).
Proof.
  intros Hknown Hne Hdocs. apply first_unknown_none in Hknown.
  unfold handler.
  fold (regions_of event) (filters_of event) (max_records_of event).
  erewrite bind_ok; [|now rewrite resolve_regions_spec, Hknown].
  cbn [app].
  erewrite bind_ok; [|apply merge_location_spec].
  fold (applied_filters event).
  erewrite bind_ok;
    [|apply regions_to_query_spec; now destruct (regions_of event)].
  erewrite bind_ok; [|apply query_regions_ok; exact Hdocs].
  cbn [app]. fold (passes_of event w).
  change (region_records env (req_service_code event) (applied_filters event)
            (max_records_of event)) with (records_of env event).
  fold (aggregate env event w).
  erewrite bind_ok; [|apply result_file_path_spec].
  unfold bind, put_file, ret. rewrite firstn_summary.
  reflexivity.
Qed.

(** A served document that decodes to something else than an object is
    fatal: the tagging raises, and no file has been written. *)
Lemma handler_type_error (event : Request) (w : World) :
  Forall known_region (regions_of event) ->
  regions_of event <> [] ->
  serves_documents env event w = false ->
  exists w', handler env event w = (inl TypeError, w')
             /\ put_files w' = put_files w.
Proof.
  intros Hknown Hne Hdocs. apply first_unknown_none in Hknown.
  unfold handler.
  fold (regions_of event) (filters_of event) (max_records_of event).
  erewrite bind_ok; [|now rewrite resolve_regions_spec, Hknown].
  cbn [app].
  erewrite bind_ok; [|apply merge_location_spec].
  fold (applied_filters event).
  erewrite bind_ok;
    [|apply regions_to_query_spec; now destruct (regions_of event)].
  destruct (query_regions_bad env (req_service_code event)
              (applied_filters event) (max_records_of event)
              (map display_name (regions_of event)) [] w Hdocs)
    as (w' & Hrun & Hfiles & _).
  exists w'. split; [|exact Hfiles]. now apply bind_fail.
Qed.

(** The outcomes of the handler are exactly these four. *)
Lemma handler_cases (event : Request) (w : World) :
  (exists region, first_unknown (regions_of event) = Some region)
  \/ regions_of event = []
  \/ (Forall known_region (regions_of event) /\ regions_of event <> []
      /\ serves_documents env event w = true)
  \/ (Forall known_region (regions_of event) /\ regions_of event <> []
      /\ serves_documents env event w = false).
Proof.
  destruct (first_unknown (regions_of event)) as [region|] eqn:Hu;
    [left; now exists region|].
  apply first_unknown_none in Hu.
  destruct (regions_of event) as [|r rs] eqn:Hr; [now right; left|].
  right; right.
  destruct (serves_documents env event w); [left|right];
    repeat split; auto; discriminate.
Qed.

(** A successful invocation is one of known regions and documents. *)
Lemma handler_success_inv (event : Request) (w w' : World) (resp : Response) :
  handler env event w = (inr resp, w') ->
  Forall known_region (regions_of event) /\ regions_of event <> []
  /\ serves_documents env event w = true
  /\ resp = success_response env event w /\ w' = final_world env event w.
Proof.
  intros Hrun.
  destruct (handler_cases event w)
    as [(region & Hu)|[Hnil|[(Hk & Hne & Hd)|(Hk & Hne & Hd)]]].
  - rewrite (handler_unknown_region _ _ _ Hu) in Hrun. discriminate.
  - rewrite (handler_no_region _ w Hnil) in Hrun. discriminate.
  - rewrite (handler_success _ _ Hk Hne Hd) in Hrun.
    injection Hrun as <- <-. auto.
  - destruct (handler_type_error _ _ Hk Hne Hd) as (w1 & Hrun' & _).
    rewrite Hrun' in Hrun. discriminate.
Qed.

End HandlerFacts.

(** ** Records, documents and warnings of an invocation *)

Section AggregateFacts.
Variable env : Env.

Lemma tagged_records_member (region_name : string) (docs : list string)
    (record : json) :
  In record (tagged_records env region_name docs) <->
  exists doc members,
    In doc docs /\ json_loads env doc = inr (JObj members)
    /\ record = JObj (PyDict.set members "queryRegion" (JStr region_name)).
Proof.
  unfold tagged_records. rewrite in_flat_map. split.
  - intros (doc & Hin & Hrec). unfold tagged in Hrec.
    destruct (json_loads env doc) as [e|[| | | | |members]] eqn:E;
      try contradiction.
    destruct Hrec as [<-|[]]. now exists doc, members.
  - intros (doc & members & Hin & E & ->). exists doc. split; [exact Hin|].
    unfold tagged. rewrite E. now left.
Qed.

Lemma decode_warnings_member (docs : list string) (msg : string) :
  In msg (decode_warnings env docs) <->
  exists doc e,
    In doc docs /\ json_loads env doc = inl e
    /\ msg = ("Failed to parse pricing data: " ++ e)%string.
Proof.
  unfold decode_warnings. rewrite in_flat_map. split.
  - intros (doc & Hin & Hmsg). unfold decode_warning in Hmsg.
    destruct (json_loads env doc) as [e|v] eqn:E; [|contradiction].
    destruct Hmsg as [<-|[]]. now exists doc, e.
  - intros (doc & e & Hin & E & ->). exists doc. split; [exact Hin|].
    unfold decode_warning. rewrite E. now left.
Qed.

Lemma decode_warnings_count (docs : list string) :
  List.length (decode_warnings env docs)
  = List.length (filter (is_malformed env) docs).
Proof.
  induction docs as [|doc docs IH]; [reflexivity|].
  cbn [decode_warnings flat_map filter].
  rewrite length_app. fold (decode_warnings env docs). rewrite IH.
  unfold decode_warning, is_malformed.
  now destruct (json_loads env doc).
Qed.

Lemma tagged_records_count (region_name : string) (docs : list string) :
  forallb (is_document env) docs = true ->
  List.length (tagged_records env region_name docs)
  = List.length (filter (fun doc => negb (is_malformed env doc)) docs).
Proof.
  induction docs as [|doc docs IH]; [reflexivity|].
  cbn [forallb tagged_records flat_map filter]. intros H.
  apply andb_true_iff in H as [Hdoc Hdocs].
  rewrite length_app. fold (tagged_records env region_name docs).
  rewrite (IH Hdocs). unfold tagged, is_malformed, is_document in *.
  now destruct (json_loads env doc) as [e|[| | | | |members]].
Qed.

Lemma is_document_iff (doc : string) :
  is_document env doc = true <-> well_formed env doc \/ malformed env doc.
Proof.
  unfold is_document, well_formed, malformed.
  destruct (json_loads env doc) as [e|[| | | | |members]]; split;
    try discriminate; try reflexivity;
    try (intros [(m & H)|(e' & H)]; discriminate); eauto.
Qed.

Lemma serves_documents_iff (event : Request) (w : World) :
  serves_documents env event w = true <->
  forall pass doc,
    In pass (passes_of event w) -> In doc (documents_of env event pass) ->
    well_formed env doc \/ malformed env doc.
Proof.
  unfold serves_documents. rewrite forallb_forall. split.
  - intros H pass doc Hpass Hdoc. apply is_document_iff.
    specialize (H pass Hpass). rewrite forallb_forall in H. auto.
  - intros H pass Hpass. apply forallb_forall. intros doc Hdoc.
    apply is_document_iff. eauto.
Qed.

Lemma aggregate_member (event : Request) (w : World) (record : json) :
  In record (aggregate env event w) <->
  exists pass doc members,
    In pass (passes_of event w) /\ In doc (documents_of env event pass)
    /\ json_loads env doc = inr (JObj members)
    /\ record = JObj (PyDict.set members "queryRegion" (JStr (snd pass))).
Proof.
  unfold aggregate. rewrite in_concat. split.
  - intros (records & Hrecords & Hin). apply in_map_iff in Hrecords.
    destruct Hrecords as (pass & <- & Hpass).
    apply tagged_records_member in Hin.
    destruct Hin as (doc & members & Hdoc & E & ->).
    now exists pass, doc, members.
  - intros (pass & doc & members & Hpass & Hdoc & E & ->).
    exists (records_of env event pass). split; [now apply in_map|].
    apply tagged_records_member. now exists doc, members.
Qed.

Lemma aggregate_count (event : Request) (w : World) :
  serves_documents env event w = true ->
  List.length (aggregate env event w)
  = List.length (filter (fun doc => negb (is_malformed env doc))
                        (served_documents env event w)).
Proof.
  unfold serves_documents, aggregate, served_documents.
  induction (passes_of event w) as [|pass ps IH]; [reflexivity|].
  cbn [forallb map List.concat flat_map]. intros H.
  apply andb_true_iff in H as [Hpass Hps].
  rewrite filter_app, !length_app, (IH Hps). f_equal.
  now apply tagged_records_count.
Qed.

Lemma logged_warnings_count (event : Request) (w : World) :
  List.length (logged_warnings env event w)
  = List.length (filter (is_malformed env) (served_documents env event w)).
Proof.
  unfold logged_warnings, served_documents.
  induction (passes_of event w) as [|pass ps IH]; [reflexivity|].
  cbn [flat_map]. rewrite filter_app, !length_app, IH. f_equal.
  apply decode_warnings_count.
Qed.

Lemma passes_of_names (event : Request) (w : World) :
  map snd (passes_of event w) = map display_name (regions_of event).
Proof. apply passes_names. Qed.

Lemma applied_filters_multi (event : Request) :
  1 < List.length (regions_of event) ->
  applied_filters event
  = normalize_filters_for_service (Some (filters_of event)).
Proof.
  unfold applied_filters.
  destruct (regions_of event) as [|r1 [|r2 rs]]; simpl; [lia|lia|reflexivity].
Qed.

Lemma applied_filters_single (event : Request) (region : string) :
  regions_of event = [region] ->
  applied_filters event
  = PyDict.set (normalize_filters_for_service (Some (filters_of event)))
               "location" (JStr (display_name region)).
Proof. unfold applied_filters. now intros ->. Qed.

End AggregateFacts.

Lemma firstn_min {A} (records : list A) :
  firstn (Nat.min (List.length records) 10) records = firstn 10 records.
Proof.
  destruct (Nat.le_ge_cases 10 (List.length records)) as [H|H].
  - now rewrite Nat.min_r.
  - rewrite Nat.min_l by assumption.
    now rewrite firstn_all, firstn_all2.
Qed.

(** * The claims of the specification *)

(** ** Filter normalisation *)

(** C2, as stated, fails where two keys convert to one name: the entry
    keeps the value of the later key, so the earlier key's value is not
    mapped unchanged. *)
Lemma normalize_filters_collision :
  let filters :=
    [("instance_type", "t3.micro"); ("instanceType", "m5.large")] in
  PyDict.wf filters
  /\ In ("instance_type", "t3.micro") filters
  /\ normalize_filters_for_service (Some filters)
     = [("instanceType", "m5.large")]
  /\ PyDict.get (normalize_filters_for_service (Some filters))
                (_snake_to_camel "instance_type")
     <> Some "t3.micro".
Proof.
  cbv zeta. split; [|split; [|split]].
  - repeat constructor; simpl; intuition discriminate.
  - now left.
  - reflexivity.
  - discriminate.
Qed.

(** C2 (amended). Normalisation converts each key that contains a separator
    to the compact camel form: the first segment unchanged, each later
    segment capitalized, all concatenated, no underscore left.  A key
    without separator is unchanged.  The keys of the result are the
    converted keys of the input.  A key's value is carried unchanged to its
    converted key provided no later key of the mapping converts to the same
    name.  Empty and absent input give the empty mapping. *)
Theorem normalize_filters_contract (V : Type) (filters : PyDict.dict V) :
  (forall first rest,
      rest <> [] -> Forall separator_free (first :: rest) ->
      _snake_to_camel (PyStr.join "_" (first :: rest))
      = (first ++ PyStr.concat_all (map PyStr.capitalize rest))%string)
  /\ (forall c rest,
         PyStr.capitalize (String c rest)
         = String (PyStr.upper_char c) (PyStr.lower rest))
  /\ (forall key, separator_free (_snake_to_camel key))
  /\ (forall key, separator_free key -> _snake_to_camel key = key)
  /\ (forall name,
         In name (PyDict.keys (normalize_filters_for_service (Some filters)))
         <-> exists key, In key (PyDict.keys filters)
                         /\ name = _snake_to_camel key)
  /\ (forall before key value after,
         filters = before ++ (key, value) :: after ->
         (forall key', In key' (PyDict.keys after) ->
                       _snake_to_camel key' <> _snake_to_camel key) ->
         PyDict.get (normalize_filters_for_service (Some filters))
                    (_snake_to_camel key) = Some value)
  /\ normalize_filters_for_service (@None (PyDict.dict V)) = []
  /\ normalize_filters_for_service (Some (@nil (string * V))) = [].
Proof.
  repeat split.
  - apply snake_to_camel_segments.
  - apply snake_to_camel_free.
  - apply snake_to_camel_fixed.
  - rewrite normalize_some. intros H.
    apply normalize_items_keys in H. destruct H as [[]|H]. exact H.
  - rewrite normalize_some. intros H. apply normalize_items_keys. now right.
  - intros before key value after -> Hlater.
    rewrite normalize_some, normalize_items_app. cbn [normalize_items].
    rewrite normalize_items_get_other by assumption.
    apply PyDictFacts.get_set_same.
Qed.

Lemma normalize_filters_contract_witness :
  let filters := [("instance_type", JStr "t3.micro");
                  ("product_family", JStr "Compute Instance");
                  ("tenancy", JStr "Shared")] in
  _snake_to_camel "product_family" = "productFamily"
  /\ _snake_to_camel "tenancy" = "tenancy"
  /\ PyDict.get (normalize_filters_for_service (Some filters))
                (_snake_to_camel "instance_type") = Some (JStr "t3.micro").
Proof.
  intros filters.
  destruct (normalize_filters_contract json filters)
    as (Hsegments & _ & _ & Hfixed & _ & Hvalue & _).
  split; [|split].
  - apply (Hsegments "product" ["family"]); [discriminate|].
    repeat constructor.
  - apply Hfixed. reflexivity.
  - apply (Hvalue [] "instance_type" (JStr "t3.micro")
                  [("product_family", JStr "Compute Instance");
                   ("tenancy", JStr "Shared")]); [reflexivity|].
    simpl. intros key' [<-|[<-|[]]]; discriminate.
Defined.

(** C9. Filter normalisation is idempotent: the keys of its output contain
    no separator, each of them passes through the key conversion unchanged,
    and normalising the output again returns it as it is. *)
Theorem normalize_filters_idempotent (V : Type)
    (filters : option (PyDict.dict V)) :
  let normalized := normalize_filters_for_service filters in
  Forall separator_free (PyDict.keys normalized)
  /\ Forall (fun k => _snake_to_camel k = k) (PyDict.keys normalized)
  /\ normalize_filters_for_service (Some normalized) = normalized.
Proof.
  intros normalized.
  pose proof (normalize_keys_free V filters) as Hfree.
  fold normalized in Hfree. split; [exact Hfree|split].
  - eapply Forall_impl; [|exact Hfree]. intros k. apply snake_to_camel_fixed.
  - rewrite normalize_some.
    apply (normalize_items_fixed V normalized []); [|exact Hfree].
    apply normalize_wf.
Qed.

(** ** Region resolution *)

(** C3. When the regions of a request contain a code that is absent from
    the region table, the invocation fails with a [PricingError] naming such
    a code, and the world is the one it started in: no catalog query has
    been issued and no file has been persisted. *)
Theorem unknown_region_fails_fast (env : Env) (event : Request) (w : World) :
  (exists region, In region (regions_of event)
                  /\ PyDict.get REGION_MAPPING region = None) ->
  exists region w',
    In region (regions_of event)
    /\ PyDict.get REGION_MAPPING region = None
    /\ handler env event w
       = (inl (PricingError ("Unknown region: " ++ region)%string), w')
    /\ api_calls w' = api_calls w
    /\ put_files w' = put_files w
    /\ w' = w.
Proof.
  intros Hunknown.
  destruct (unknown_region_found _ Hunknown) as (region & Hfirst).
  destruct (first_unknown_some _ _ Hfirst) as (Hin & Hget).
  exists region, w. repeat split; auto.
  now apply handler_unknown_region.
Qed.

Lemma unknown_region_fails_fast_witness :
  let event := sample_event (Some ["us-east-1"; "mars-north-1"]) None in
  (exists region, In region (regions_of event)
                  /\ PyDict.get REGION_MAPPING region = None)
  /\ exists region w',
      In region (regions_of event)
      /\ PyDict.get REGION_MAPPING region = None
      /\ handler sample_env event fresh_world
         = (inl (PricingError ("Unknown region: " ++ region)%string), w')
      /\ api_calls w' = api_calls fresh_world
      /\ put_files w' = put_files fresh_world
      /\ w' = fresh_world.
Proof.
  intros event.
  assert (Hunknown : exists region,
             In region (regions_of event)
             /\ PyDict.get REGION_MAPPING region = None).
  { exists "mars-north-1". split; [simpl; tauto|reflexivity]. }
  split; [exact Hunknown|].
  exact (unknown_region_fails_fast sample_env event fresh_world Hunknown).
Defined.

(** C10. With a non-empty regions list the index of the first display name
    is in bounds and the handler never fails on a list index; an absent
    [regions] key falls back to the single default region; an explicitly
    empty list passes both guards and reaches the unguarded index of the
    first display name, which raises [IndexError] (not a [PricingError])
    before anything has been done. *)
Theorem empty_regions_index_error (env : Env) (event : Request) (w : World) :
  (regions_of event <> [] ->
   (exists name,
       index (map display_name (regions_of event)) 0 w = (inr name, w))
   /\ fst (handler env event w) <> inl IndexError)
  /\ (req_regions event = None -> regions_of event = ["us-east-1"])
  /\ (req_regions event = Some [] ->
      (List.length (@nil string) =? 1)%nat = false
      /\ (1 <? List.length (@nil string))%nat = false
      /\ index (@nil string) 0 w = (inl IndexError, w)
      /\ handler env event w = (inl IndexError, w)
      /\ forall msg, fst (handler env event w) <> inl (PricingError msg)).
Proof.
  split; [|split].
  - intros Hne. split.
    { destruct (regions_of event) as [|region rest]; [contradiction|].
      now exists (display_name region). }
    destruct (handler_cases env event w)
      as [(region & Hu)|[Hnil|[(Hk & _ & Hd)|(Hk & _ & Hd)]]].
    + rewrite (handler_unknown_region env _ w _ Hu). discriminate.
    + contradiction.
    + rewrite (handler_success env _ _ Hk Hne Hd). discriminate.
    + destruct (handler_type_error env _ _ Hk Hne Hd) as (w' & -> & _).
      discriminate.
  - unfold regions_of. now intros ->.
  - intros Hempty.
    assert (Hnil : regions_of event = [])
      by (unfold regions_of; now rewrite Hempty).
    rewrite (handler_no_region env _ w Hnil).
    repeat split; discriminate.
Qed.

Lemma empty_regions_index_error_witness :
  let event := sample_event (Some ["eu-west-1"]) None in
  let empty := sample_event (Some []) None in
  fst (handler sample_env event fresh_world) <> inl IndexError
  /\ handler sample_env empty fresh_world = (inl IndexError, fresh_world).
Proof.
  intros event empty. split.
  - apply (empty_regions_index_error sample_env event fresh_world).
    discriminate.
  - apply (empty_regions_index_error sample_env empty fresh_world).
    reflexivity.
Defined.

(** ** The result writer *)

(** C5. A successful invocation persists one file.  With [n] the number of
    records of the aggregate, the file holds all [n] records, the response
    holds the first [min n 10] of them, and the record count of the file,
    of its metadata and of the response is [n]. *)
Theorem summary_and_persisted_records (env : Env) (event : Request)
    (w w' : World) (resp : Response) :
  handler env event w = (inr resp, w') ->
  exists file,
    put_files w' = put_files w ++ [file]
    /\ let records := aggregate env event w in
       let n := List.length records in
       detail_pricing_records (data file) = records
       /\ resp_pricing_records resp = firstn (Nat.min n 10) records
       /\ List.length (resp_pricing_records resp) = Nat.min n 10
       /\ detail_record_count (data file) = n
       /\ meta_record_count (metadata file) = n
       /\ resp_record_count resp = n.
Proof.
  intros Hrun.
  apply handler_success_inv in Hrun as (_ & _ & _ & -> & ->).
  exists (persisted_file env event w).
  unfold final_world, success_response, persisted_file.
  cbn [put_files data metadata detail_pricing_records detail_record_count
       meta_record_count resp_pricing_records resp_record_count].
  repeat split.
  - now rewrite firstn_min.
  - rewrite length_firstn. apply Nat.min_comm.
Qed.

Lemma summary_and_persisted_records_witness :
  let event := bulk_event in
  let resp := success_response bulk_env event fresh_world in
  let w' := final_world bulk_env event fresh_world in
  handler bulk_env event fresh_world = (inr resp, w')
  /\ List.length (aggregate bulk_env event fresh_world) = 12
  /\ List.length (resp_pricing_records resp) = 10
  /\ exists file,
      put_files w' = put_files fresh_world ++ [file]
      /\ detail_pricing_records (data file)
         = aggregate bulk_env event fresh_world
      /\ resp_record_count resp = 12.
Proof.
  intros event resp w'.
  assert (Hrun : handler bulk_env event fresh_world = (inr resp, w'))
    by (vm_compute; reflexivity).
  destruct (summary_and_persisted_records bulk_env event fresh_world w' resp
              Hrun) as (file & Hfiles & Hall & _ & Hlen & _ & _ & Hcount).
  split; [exact Hrun|]. split; [reflexivity|]. split; [exact Hlen|].
  exists file. split; [exact Hfiles|]. split; [exact Hall|exact Hcount].
Defined.

(** C8. When the request supplies no output path (absent or empty), a
    successful invocation draws one token from the generator, builds the
    path from the working directory and the file name
    [aws_pricing_<service code>_<token>.json], and uses that same path for
    the persisted file and for the [result_file_path] of the response. *)
Theorem generated_path_is_shared (env : Env) (event : Request)
    (w w' : World) (resp : Response) :
  truthy (req_result_file_path event) = false ->
  handler env event w = (inr resp, w') ->
  let token := uuid4 env (uuid_draws w) in
  let name := ("aws_pricing_" ++ req_service_code event ++ "_" ++ token
               ++ ".json")%string in
  exists file,
    put_files w' = put_files w ++ [file]
    /\ file_path file = PyStr.os_path_join (working_directory env) name
    /\ resp_result_file_path resp = file_path file
    /\ uuid_draws w' = S (uuid_draws w)
    /\ exists sep,
        (sep = EmptyString \/ sep = "/")
        /\ file_path file = (working_directory env ++ sep ++ name)%string.
Proof.
  intros Hnone Hrun token name.
  apply handler_success_inv in Hrun as (_ & _ & _ & -> & ->).
  exists (persisted_file env event w).
  unfold final_world, success_response, persisted_file.
  cbn [put_files file_path resp_result_file_path uuid_draws].
  rewrite Hnone.
  assert (Hpath : output_path env event w
                  = PyStr.os_path_join (working_directory env) name).
  { unfold output_path, generated_path.
    destruct (req_result_file_path event) as [[|c p]|];
      [reflexivity|discriminate|reflexivity]. }
  rewrite Hpath. repeat split.
  unfold PyStr.os_path_join.
  cbn [name PyStr.startswith append Ascii.eqb Bool.eqb].
  destruct (_ || _).
  - exists EmptyString. split; [now left|reflexivity].
  - exists "/". split; [now right|reflexivity].
Qed.

Lemma generated_path_is_shared_witness :
  let event := sample_event (Some ["us-east-1"]) None in
  let resp := success_response sample_env event fresh_world in
  let w' := final_world sample_env event fresh_world in
  truthy (req_result_file_path event) = false
  /\ handler sample_env event fresh_world = (inr resp, w')
  /\ exists file,
      put_files w' = [file]
      /\ file_path file
         = "/work/aws_pricing_AmazonEC2_2f1e4c6a-9b7d-4e21-8c3f-5a6b7c8d9e0f.json"
      /\ resp_result_file_path resp = file_path file.
Proof.
  intros event resp w'.
  assert (Hrun : handler sample_env event fresh_world = (inr resp, w'))
    by (vm_compute; reflexivity).
  destruct (generated_path_is_shared sample_env event fresh_world w' resp
              eq_refl Hrun) as (file & Hfiles & Hpath & Hresp & _).
  split; [reflexivity|]. split; [exact Hrun|].
  exists file. split; [exact Hfiles|]. split; [exact Hpath|exact Hresp].
Defined.

(** ** The query executor *)

Lemma queries_of_query (event : Request) :
  queries_of event
  = map (fun region =>
           {| ServiceCode := req_service_code event;
              Filters :=
                build_api_filters
                  (PyDict.set
                     (normalize_filters_for_service (Some (filters_of event)))
                     "location" (JStr (display_name region)));
              MaxResults := max_records_of event |})
        (regions_of event).
Proof.
  unfold queries_of, applied_filters. rewrite map_map.
  destruct (regions_of event) as [|r1 [|r2 rs]]; cbn [map]; try reflexivity.
  unfold region_query, pinned_filters.
  now rewrite PyDictFacts.set_set.
Qed.

Lemma passes_fst (n : nat) (names : list string) :
  map fst (passes n names) = seq n (List.length names).
Proof.
  revert n. induction names as [|name names IH]; intros n; [reflexivity|].
  rewrite passes_cons. simpl. now rewrite IH.
Qed.

(** C1. A request for several regions, all in the region table, whose
    served documents are well-formed or malformed, makes exactly one query
    pass per region, in the order of the request, each with that region's
    display name as location filter; for [us-east-1], [eu-west-1] and no
    caller filters these are two passes with the single filters
    [location = US East (N. Virginia)] and [location = Europe (Ireland)].
    The persisted record list is the concatenation of the records of the
    passes in that order: nothing is removed or reordered. *)
Theorem multi_region_fan_out (env : Env) (event : Request) (w : World) :
  Forall known_region (regions_of event) ->
  1 < List.length (regions_of event) ->
  serves_documents env event w = true ->
  let normalized :=
    normalize_filters_for_service (Some (filters_of event)) in
  let query region :=
    {| ServiceCode := req_service_code event;
       Filters := build_api_filters
                    (PyDict.set normalized "location"
                                (JStr (display_name region)));
       MaxResults := max_records_of event |} in
  exists resp w' file,
    handler env event w = (inr resp, w')
    /\ put_files w' = put_files w ++ [file]
    /\ api_calls w' = api_calls w ++ map query (regions_of event)
    /\ List.length (api_calls w')
       = List.length (api_calls w) + List.length (regions_of event)
    /\ (regions_of event = ["us-east-1"; "eu-west-1"] ->
        filters_of event = [] ->
        map Filters (map query (regions_of event))
        = [ [ {| Type_ := "TERM_MATCH"; Field := "location";
                 Value := JStr "US East (N. Virginia)" |} ];
            [ {| Type_ := "TERM_MATCH"; Field := "location";
                 Value := JStr "Europe (Ireland)" |} ] ])
    /\ map snd (passes_of event w) = map display_name (regions_of event)
    /\ map fst (passes_of event w)
       = seq (List.length (api_calls w)) (List.length (regions_of event))
    /\ (forall pass,
           records_of env event pass
           = tagged_records env (snd pass)
               (List.concat
                  (catalog env (fst pass)
                     {| ServiceCode := req_service_code event;
                        Filters := build_api_filters
                                     (PyDict.set normalized "location"
                                                 (JStr (snd pass)));
                        MaxResults := max_records_of event |})))
    /\ detail_pricing_records (data file)
       = List.concat (map (records_of env event) (passes_of event w))
    /\ List.length (detail_pricing_records (data file))
       = list_sum (map (fun pass => List.length (records_of env event pass))
                       (passes_of event w)).
Proof.
  intros Hknown Hmulti Hdocs normalized query.
  assert (Hne : regions_of event <> [])
    by (destruct (regions_of event); [simpl in Hmulti; lia|discriminate]).
  exists (success_response env event w), (final_world env event w),
         (persisted_file env event w).
  split; [now apply handler_success|].
  unfold final_world, persisted_file.
  cbn [put_files api_calls data detail_pricing_records].
  rewrite queries_of_query. fold normalized. fold query.
  split; [reflexivity|]. split; [reflexivity|].
  split; [now rewrite length_app, length_map|].
  split; [intros -> Hfilters; subst query normalized; now rewrite Hfilters|].
  split; [apply passes_of_names|].
  split; [unfold passes_of; now rewrite passes_fst, length_map|].
  split.
  - intros pass. unfold records_of, region_records, fetched_documents,
      region_query, pinned_filters.
    now rewrite applied_filters_multi.
  - split; [reflexivity|].
    unfold aggregate. now rewrite length_concat, map_map.
Qed.

Lemma multi_region_fan_out_witness :
  let event := sample_event (Some ["us-east-1"; "eu-west-1"]) None in
  Forall known_region (regions_of event)
  /\ 1 < List.length (regions_of event)
  /\ serves_documents sample_env event fresh_world = true
  /\ exists resp w',
      handler sample_env event fresh_world = (inr resp, w')
      /\ map Filters (api_calls w')
         = [ [ {| Type_ := "TERM_MATCH"; Field := "location";
                  Value := JStr "US East (N. Virginia)" |} ];
             [ {| Type_ := "TERM_MATCH"; Field := "location";
                  Value := JStr "Europe (Ireland)" |} ] ].
Proof.
  intros event.
  assert (Hknown : Forall known_region (regions_of event))
    by (repeat constructor).
  assert (Hmulti : 1 < List.length (regions_of event)) by (simpl; lia).
  destruct (multi_region_fan_out sample_env event fresh_world Hknown Hmulti
              eq_refl) as (resp & w' & file & Hrun & _ & Hcalls & _ & Hex & _).
  split; [exact Hknown|]. split; [exact Hmulti|]. split; [reflexivity|].
  exists resp, w'. split; [exact Hrun|].
  rewrite Hcalls. exact (Hex eq_refl eq_refl).
Defined.

(** C6. For a request of known regions whose served documents are
    well-formed or malformed, the filter set of each region's query is the
    normalized caller filters with [location] set to the region's display
    name: a caller-supplied location is replaced, every other filter is
    kept.  For a single region that location is already part of the
    filters before the loop, so the filters reported as applied carry it and
    the assignment inside the loop changes nothing; for several regions the
    filters reported as applied are the normalized caller filters alone. *)
Theorem query_filter_sets (env : Env) (event : Request) (w : World) :
  Forall known_region (regions_of event) ->
  regions_of event <> [] ->
  serves_documents env event w = true ->
  let normalized :=
    normalize_filters_for_service (Some (filters_of event)) in
  let pinned region :=
    PyDict.set normalized "location" (JStr (display_name region)) in
  exists resp w',
    handler env event w = (inr resp, w')
    /\ api_calls w'
       = api_calls w
         ++ map (fun region =>
                   {| ServiceCode := req_service_code event;
                      Filters := build_api_filters (pinned region);
                      MaxResults := max_records_of event |})
                (regions_of event)
    /\ (forall region,
           PyDict.get (pinned region) "location"
           = Some (JStr (display_name region)))
    /\ (forall region key,
           key <> "location" ->
           PyDict.get (pinned region) key = PyDict.get normalized key)
    /\ (forall region,
           regions_of event = [region] ->
           resp_filters_applied resp = pinned region
           /\ PyDict.set (PyDict.copy (resp_filters_applied resp)) "location"
                         (JStr (display_name region))
              = resp_filters_applied resp)
    /\ (1 < List.length (regions_of event) ->
        resp_filters_applied resp = normalized).
Proof.
  intros Hknown Hne Hdocs normalized pinned.
  exists (success_response env event w), (final_world env event w).
  split; [now apply handler_success|].
  unfold final_world, success_response.
  cbn [api_calls resp_filters_applied].
  split; [now rewrite queries_of_query|].
  split; [intros region; apply PyDictFacts.get_set_same|].
  split.
  { intros region key Hkey. apply PyDictFacts.get_set_other. congruence. }
  split.
  - intros region Hsingle. rewrite (applied_filters_single _ _ Hsingle).
    split; [reflexivity|]. unfold PyDict.copy. apply PyDictFacts.set_set.
  - apply applied_filters_multi.
Qed.

Lemma query_filter_sets_witness :
  let filters :=
    [("location", JStr "Mars"); ("instance_type", JStr "t3.micro")] in
  let event := sample_event (Some ["us-east-1"; "eu-west-1"]) (Some filters) in
  Forall known_region (regions_of event)
  /\ regions_of event <> []
  /\ serves_documents sample_env event fresh_world = true
  /\ exists resp w',
      handler sample_env event fresh_world = (inr resp, w')
      /\ map Filters (api_calls w')
         = [ [ {| Type_ := "TERM_MATCH"; Field := "location";
                  Value := JStr "US East (N. Virginia)" |};
               {| Type_ := "TERM_MATCH"; Field := "instanceType";
                  Value := JStr "t3.micro" |} ];
             [ {| Type_ := "TERM_MATCH"; Field := "location";
                  Value := JStr "Europe (Ireland)" |};
               {| Type_ := "TERM_MATCH"; Field := "instanceType";
                  Value := JStr "t3.micro" |} ] ]
      /\ resp_filters_applied resp
         = [("location", JStr "Mars"); ("instanceType", JStr "t3.micro")].
Proof.
  intros filters event.
  assert (Hknown : Forall known_region (regions_of event))
    by (repeat constructor).
  assert (Hne : regions_of event <> []) by discriminate.
  destruct (query_filter_sets sample_env event fresh_world Hknown Hne eq_refl)
    as (resp & w' & Hrun & Hcalls & _ & _ & _ & Hmulti).
  split; [exact Hknown|]. split; [exact Hne|]. split; [reflexivity|].
  exists resp, w'. split; [exact Hrun|]. split.
  - rewrite Hcalls. reflexivity.
  - apply Hmulti. simpl. lia.
Defined.

(** C7. Every query pass carries the caller's [max_records] (50 when the
    request has none) as [MaxResults], and every well-formed document of
    every page the catalog serves to a pass ends up in the aggregate: the
    number of records is the number of well-formed documents over all
    pages.  [max_records] therefore caps a page, not the aggregate: there
    is an invocation whose catalog never serves a page larger than
    [MaxResults] and whose record count exceeds [max_records]. *)
Theorem max_records_caps_pages_only :
  (forall (env : Env) (event : Request) (w : World),
      Forall known_region (regions_of event) ->
      regions_of event <> [] ->
      serves_documents env event w = true ->
      exists resp w' calls,
        handler env event w = (inr resp, w')
        /\ api_calls w' = api_calls w ++ calls
        /\ List.length calls = List.length (regions_of event)
        /\ Forall (fun q =>
                     MaxResults q = match req_max_records event with
                                    | Some n => n
                                    | None => 50%Z
                                    end) calls
        /\ (forall pass page doc members,
               In pass (passes_of event w) ->
               In page (pages_of env event pass) ->
               In doc page ->
               json_loads env doc = inr (JObj members) ->
               In (JObj (PyDict.set members "queryRegion" (JStr (snd pass))))
                  (aggregate env event w))
        /\ resp_record_count resp
           = List.length
               (filter (fun doc => negb (is_malformed env doc))
                       (flat_map (fun pass =>
                                    List.concat (pages_of env event pass))
                                 (passes_of event w))))
  /\ (exists (env : Env) (event : Request) (w w' : World) (resp : Response),
         handler env event w = (inr resp, w')
         /\ Forall (fun q =>
                      forall n page,
                        In page (catalog env n q) ->
                        (Z.of_nat (List.length page) <= MaxResults q)%Z)
                   (api_calls w')
         /\ (max_records_of event < Z.of_nat (resp_record_count resp))%Z).
Proof.
  split.
  - intros env event w Hknown Hne Hdocs.
    exists (success_response env event w), (final_world env event w),
           (queries_of event).
    split; [now apply handler_success|].
    split; [reflexivity|].
    split; [unfold queries_of; now rewrite !length_map|].
    split; [unfold queries_of; apply Forall_map, Forall_map, Forall_forall;
            reflexivity|].
    split.
    + intros pass page doc members Hpass Hpage Hdoc Hload.
      apply aggregate_member. exists pass, doc, members.
      repeat split; auto.
      unfold documents_of, fetched_documents. apply in_concat.
      now exists page.
    + unfold success_response. cbn [resp_record_count].
      now rewrite aggregate_count.
  - exists bulk_env, bulk_event, fresh_world,
           (final_world bulk_env bulk_event fresh_world),
           (success_response bulk_env bulk_event fresh_world).
    split; [vm_compute; reflexivity|].
    split; [|vm_compute; reflexivity].
    repeat constructor.
    intros n page [<-|[<-|[]]]; vm_compute; discriminate.
Qed.

Lemma max_records_caps_pages_only_witness :
  let event := sample_event (Some ["us-east-1"; "eu-west-1"]) None in
  Forall known_region (regions_of event)
  /\ regions_of event <> []
  /\ serves_documents sample_env event fresh_world = true
  /\ exists resp w',
      handler sample_env event fresh_world = (inr resp, w')
      /\ map MaxResults (api_calls w') = [50%Z; 50%Z]
      /\ resp_record_count resp = 3.
Proof.
  intros event.
  assert (Hknown : Forall known_region (regions_of event))
    by (repeat constructor).
  assert (Hne : regions_of event <> []) by discriminate.
  destruct max_records_caps_pages_only as (Hall & _).
  destruct (Hall sample_env event fresh_world Hknown Hne eq_refl)
    as (resp & w' & calls & Hrun & Hcalls & Hlen & Hmax & _ & Hcount).
  split; [exact Hknown|]. split; [exact Hne|]. split; [reflexivity|].
  exists resp, w'. split; [exact Hrun|]. split.
  - rewrite Hcalls. cbn [fresh_world api_calls app].
    destruct calls as [|q1 [|q2 [|q3 calls]]]; try discriminate Hlen.
    inversion Hmax as [|? ? H1 Hrest]; subst.
    inversion Hrest as [|? ? H2 _]; subst.
    cbn [map]. now rewrite H1, H2.
  - rewrite Hcount. reflexivity.
Defined.

(** C4. When every document of every page served to the invocation is
    well-formed (it decodes to an object) or malformed (it does not decode),
    the invocation succeeds.  Each well-formed document is in the persisted
    aggregate with its [queryRegion] set to the display name of the region
    of its pass, and the aggregate holds nothing else.  Each malformed
    document adds one warning and no record: the record count is the number
    of served documents minus the malformed ones. *)
Theorem malformed_documents_are_skipped (env : Env) (event : Request)
    (w : World) :
  Forall known_region (regions_of event) ->
  regions_of event <> [] ->
  (forall pass page doc,
      In pass (passes_of event w) -> In page (pages_of env event pass) ->
      In doc page -> well_formed env doc \/ malformed env doc) ->
  exists resp w' file,
    handler env event w = (inr resp, w')
    /\ put_files w' = put_files w ++ [file]
    /\ map snd (passes_of event w) = map display_name (regions_of event)
    /\ (forall pass page doc members,
           In pass (passes_of event w) -> In page (pages_of env event pass) ->
           In doc page -> json_loads env doc = inr (JObj members) ->
           exists record,
             In record (detail_pricing_records (data file))
             /\ record = JObj (PyDict.set members "queryRegion"
                                          (JStr (snd pass)))
             /\ PyDict.get (PyDict.set members "queryRegion"
                                       (JStr (snd pass))) "queryRegion"
                = Some (JStr (snd pass)))
    /\ (forall record,
           In record (detail_pricing_records (data file)) ->
           exists pass page doc members,
             In pass (passes_of event w) /\ In page (pages_of env event pass)
             /\ In doc page /\ json_loads env doc = inr (JObj members)
             /\ record = JObj (PyDict.set members "queryRegion"
                                          (JStr (snd pass))))
    /\ (forall pass page doc e,
           In pass (passes_of event w) -> In page (pages_of env event pass) ->
           In doc page -> json_loads env doc = inl e ->
           In ("Failed to parse pricing data: " ++ e)%string (warnings w'))
    /\ List.length (warnings w')
       = List.length (warnings w)
         + List.length (filter (is_malformed env)
                               (served_documents env event w))
    /\ resp_record_count resp
       = List.length (detail_pricing_records (data file))
    /\ resp_record_count resp
       = List.length (filter (fun doc => negb (is_malformed env doc))
                             (served_documents env event w))
    /\ resp_record_count resp
       + List.length (filter (is_malformed env)
                             (served_documents env event w))
       = List.length (served_documents env event w).
Proof.
  intros Hknown Hne Hpages.
  assert (Hdocs : serves_documents env event w = true).
  { apply serves_documents_iff. intros pass doc Hpass Hdoc.
    unfold documents_of, fetched_documents in Hdoc.
    apply in_concat in Hdoc as (page & Hpage & Hdoc). eauto. }
  assert (Hmember : forall pass page doc,
             In page (pages_of env event pass) -> In doc page ->
             In doc (documents_of env event pass)).
  { intros pass page doc Hpage Hdoc.
    unfold documents_of, fetched_documents. apply in_concat.
    now exists page. }
  exists (success_response env event w), (final_world env event w),
         (persisted_file env event w).
  split; [now apply handler_success|].
  unfold final_world, success_response, persisted_file.
  cbn [put_files data detail_pricing_records warnings resp_record_count].
  split; [reflexivity|]. split; [apply passes_of_names|].
  split.
  { intros pass page doc members Hpass Hpage Hdoc Hload.
    eexists. split; [|split; [reflexivity|apply PyDictFacts.get_set_same]].
    apply aggregate_member. exists pass, doc, members. eauto. }
  split.
  { intros record Hrecord. apply aggregate_member in Hrecord.
    destruct Hrecord as (pass & doc & members & Hpass & Hdoc & Hload & ->).
    unfold documents_of, fetched_documents in Hdoc.
    apply in_concat in Hdoc as (page & Hpage & Hdoc).
    now exists pass, page, doc, members. }
  split.
  { intros pass page doc e Hpass Hpage Hdoc Hload.
    apply in_or_app. right. unfold logged_warnings. apply in_flat_map.
    exists pass. split; [exact Hpass|].
    apply decode_warnings_member. exists doc, e. eauto. }
  split; [now rewrite length_app, logged_warnings_count|].
  split; [reflexivity|].
  rewrite (aggregate_count env event w Hdocs).
  split; [reflexivity|].
  rewrite Nat.add_comm. apply filter_length.
Qed.

Lemma malformed_documents_are_skipped_witness :
  let event := sample_event (Some ["us-west-2"]) None in
  Forall known_region (regions_of event)
  /\ regions_of event <> []
  /\ serves_documents sample_env event fresh_world = true
  /\ exists resp w' file,
      handler sample_env event fresh_world = (inr resp, w')
      /\ put_files w' = [file]
      /\ In (JObj [("sku", JStr "A1");
                    ("queryRegion", JStr "US West (Oregon)")])
            (detail_pricing_records (data file))
      /\ In "Failed to parse pricing data: Expecting value: line 1 column 1 (char 0)"
            (warnings w')
      /\ resp_record_count resp + 1 = 3.
Proof.
  intros event.
  assert (Hknown : Forall known_region (regions_of event))
    by (repeat constructor).
  assert (Hne : regions_of event <> []) by discriminate.
  assert (Hdocs : serves_documents sample_env event fresh_world = true)
    by reflexivity.
  assert (Hpages : forall pass page doc,
             In pass (passes_of event fresh_world) ->
             In page (pages_of sample_env event pass) -> In doc page ->
             well_formed sample_env doc \/ malformed sample_env doc).
  { intros pass page doc Hpass Hpage Hdoc.
    apply (proj1 (serves_documents_iff sample_env event fresh_world) Hdocs
                 pass doc Hpass).
    unfold documents_of, fetched_documents. apply in_concat.
    now exists page. }
  destruct (malformed_documents_are_skipped sample_env event fresh_world
              Hknown Hne Hpages)
    as (resp & w' & file & Hrun & Hfiles & _ & Hgood & _ & Hbad & _ & _ & _
        & Hcount).
  split; [exact Hknown|]. split; [exact Hne|]. split; [exact Hdocs|].
  exists resp, w', file. split; [exact Hrun|]. split; [exact Hfiles|].
  assert (Hpass : In (0, "US West (Oregon)") (passes_of event fresh_world))
    by (now left).
  assert (Hpage : In [sku_doc "A1"; "not json"]
                     (pages_of sample_env event (0, "US West (Oregon)")))
    by (now left).
  split; [|split].
  - destruct (Hgood (0, "US West (Oregon)") [sku_doc "A1"; "not json"]
                    (sku_doc "A1") [("sku", JStr "A1")] Hpass Hpage
                    (or_introl eq_refl) eq_refl)
      as (record & Hin & -> & _).
    exact Hin.
  - apply (Hbad (0, "US West (Oregon)") [sku_doc "A1"; "not json"]
                "not json" "Expecting value: line 1 column 1 (char 0)"
                Hpass Hpage); [right; now left|reflexivity].
  - exact Hcount.
Defined.

(** * Further properties of the code *)

(** ** The key conversion *)







(** X1. A key is changed by the conversion exactly when it contains an
    underscore, and converting a converted key changes nothing. *)
Theorem snake_to_camel_changes_iff (key : string) :
  (_snake_to_camel key = key <-> separator_free key)
  /\ _snake_to_camel (_snake_to_camel key) = _snake_to_camel key.
Proof.
  split; [split|].
  - intros H. rewrite <- H. apply snake_to_camel_free.
  - apply snake_to_camel_fixed.
  - apply snake_to_camel_fixed, snake_to_camel_free.
Qed.

Lemma snake_to_camel_changes_iff_witness :
  separator_free "tenancy" /\ _snake_to_camel "tenancy" = "tenancy".
Proof.
  destruct (snake_to_camel_changes_iff "tenancy") as ((_ & Hfixed) & _).
  split; [reflexivity|exact (Hfixed eq_refl)].
Defined.

(** X2. Empty segments contribute nothing: a leading underscore is dropped
    and the rest capitalized, a trailing underscore is dropped, and a
    doubled underscore acts as a single one. *)
Theorem snake_to_camel_empty_segments (a b : string) :
  separator_free a -> separator_free b ->
  _snake_to_camel (String "_" b) = PyStr.capitalize b
  /\ _snake_to_camel (a ++ "_")%string = a
  /\ _snake_to_camel (a ++ "__" ++ b)%string
     = (a ++ PyStr.capitalize b)%string
  /\ _snake_to_camel (a ++ "_" ++ b)%string
     = (a ++ PyStr.capitalize b)%string.
Proof.
  intros Ha Hb.
  assert (Hempty : separator_free EmptyString) by reflexivity.
  assert (Hnil : forall s : string, (s ++ "")%string = s).
  { induction s as [|c s IH]; simpl; [reflexivity|now rewrite IH]. }
  assert (Hlead := snake_to_camel_segments EmptyString [b]).
  assert (Htrail := snake_to_camel_segments a [EmptyString]).
  assert (Hdouble := snake_to_camel_segments a [EmptyString; b]).
  assert (Hone := snake_to_camel_segments a [b]).
  cbn [PyStr.join PyStr.concat_all PyStr.capitalize map fold_right append]
    in Hlead, Htrail, Hdouble, Hone.
  rewrite ?Hnil in *.
  split; [|split; [|split]].
  - apply Hlead; [discriminate|now repeat constructor].
  - apply Htrail; [discriminate|now repeat constructor].
  - apply Hdouble; [discriminate|now repeat constructor].
  - apply Hone; [discriminate|now repeat constructor].
Qed.

Lemma snake_to_camel_empty_segments_witness :
  separator_free "tenancy" /\ separator_free "type"
  /\ _snake_to_camel "_type" = "Type"
  /\ _snake_to_camel "tenancy_" = "tenancy"
  /\ _snake_to_camel "tenancy__type" = "tenancyType".
Proof.
  destruct (snake_to_camel_empty_segments "tenancy" "type" eq_refl eq_refl)
    as (Hlead & Htrail & Hdouble & _).
  split; [reflexivity|]. split; [reflexivity|].
  split; [exact Hlead|]. split; [exact Htrail|exact Hdouble].
Defined.


(** ** The filter normaliser *)

Section NormalizeMore.
Variable V : Type.
Implicit Types (d acc : PyDict.dict V) (items : list (string * V)).

Lemma set_length d (k : string) (v : V) :
  List.length d <= List.length (PyDict.set d k v) <= S (List.length d).
Proof.
  induction d as [|[k0 v0] d IH]; simpl; [lia|].
  destruct (String.eqb k0 k); simpl; lia.
Qed.

Lemma set_member d (k name : string) (v value : V) :
  In (name, value) (PyDict.set d k v) ->
  (name = k /\ value = v) \/ In (name, value) d.
Proof.
  induction d as [|[k0 v0] d IH]; simpl.
  - intros [H|[]]. left. now inversion H.
  - destruct (String.eqb_spec k0 k) as [->|Hne]; simpl.
    + intros [H|H]; [left; now inversion H|right; now right].
    + intros [H|H]; [right; now left|].
      destruct (IH H) as [?|?]; [now left|right; now right].
Qed.

Lemma normalize_items_length items acc :
  List.length acc <= List.length (normalize_items items acc)
  <= List.length acc + List.length items.
Proof.
  revert acc. induction items as [|[k v] items IH]; intros acc; simpl;
    [lia|].
  pose proof (IH (PyDict.set acc (_snake_to_camel k) v)).
  pose proof (set_length acc (_snake_to_camel k) v). lia.
Qed.

Lemma normalize_items_distinct items acc :
  NoDup (PyDict.keys acc ++ map _snake_to_camel (PyDict.keys items)) ->
  normalize_items items acc = acc ++ convert_items items.
Proof.
  revert acc. induction items as [|[k v] items IH]; intros acc Hnd; simpl.
  - now rewrite app_nil_r.
  - simpl in Hnd.
    assert (Hout : ~ In (_snake_to_camel k) (PyDict.keys acc)).
    { intros Hin. apply NoDup_remove_2 in Hnd. apply Hnd.
      apply in_or_app. now left. }
    rewrite (PyDictFacts.set_absent V acc _ v Hout), IH.
    + now rewrite <- app_assoc.
    + unfold PyDict.keys in *. rewrite map_app, <- app_assoc. exact Hnd.
Qed.

Lemma normalize_items_member items acc (name : string) (value : V) :
  In (name, value) (normalize_items items acc) ->
  In (name, value) acc
  \/ exists key, In (key, value) items /\ _snake_to_camel key = name.
Proof.
  revert acc. induction items as [|[k v] items IH]; intros acc; simpl;
    [now left|].
  intros H. destruct (IH _ H) as [Hset|(key & Hin & Hkey)].
  - destruct (set_member _ _ _ _ _ Hset) as [[-> ->]|Hacc]; [|now left].
    right. exists k. split; [now left|reflexivity].
  - right. exists key. split; [now right|exact Hkey].
Qed.

End NormalizeMore.

(** X4. When no two keys of the mapping convert to the same name, the
    normalised mapping is the mapping with each key converted: same
    entries, same order, same values. *)
Theorem normalize_filters_without_collision (V : Type)
    (filters : PyDict.dict V) :
  NoDup (map _snake_to_camel (PyDict.keys filters)) ->
  normalize_filters_for_service (Some filters) = convert_items filters.
Proof.
  intros Hnd. rewrite normalize_some.
  now rewrite (normalize_items_distinct V filters []).
Qed.

Lemma normalize_filters_without_collision_witness :
  let filters := [("instance_type", JStr "t3.micro");
                  ("tenancy", JStr "Shared");
                  ("operating_system", JStr "Linux")] in
  NoDup (map _snake_to_camel (PyDict.keys filters))
  /\ normalize_filters_for_service (Some filters)
     = [("instanceType", JStr "t3.micro"); ("tenancy", JStr "Shared");
        ("operatingSystem", JStr "Linux")].
Proof.
  intros filters.
  assert (Hnd : NoDup (map _snake_to_camel (PyDict.keys filters))).
  { repeat constructor; simpl; intuition discriminate. }
  split; [exact Hnd|].
  exact (normalize_filters_without_collision json filters Hnd).
Defined.

(** X5. The normalised mapping has pairwise distinct keys and never more
    entries than the input; a non-empty input never normalises to the empty
    mapping; and no entry is lost exactly when no two keys convert to the
    same name. *)
Theorem normalize_filters_size (V : Type) (filters : PyDict.dict V) :
  let normalized := normalize_filters_for_service (Some filters) in
  PyDict.wf normalized
  /\ List.length normalized <= List.length filters
  /\ (filters <> [] -> normalized <> [])
  /\ (List.length normalized = List.length filters
      <-> NoDup (map _snake_to_camel (PyDict.keys filters))).
Proof.
  intros normalized. subst normalized.
  split; [apply normalize_wf|].
  rewrite normalize_some.
  split; [apply (normalize_items_length V filters [])|].
  split.
  - destruct filters as [|[k v] items]; [congruence|]. intros _ Hnil.
    pose proof (normalize_items_length V items
                  (PyDict.set [] (_snake_to_camel k) v)) as Hlen.
    cbn [normalize_items] in Hnil. rewrite Hnil in Hlen.
    cbn [PyDict.set List.length] in Hlen. lia.
  - split.
    + intros Hlen.
      apply (@NoDup_incl_NoDup _
               (PyDict.keys (normalize_items filters []))).
      * apply normalize_items_wf. constructor.
      * unfold PyDict.keys. rewrite !length_map. lia.
      * intros name Hin. apply normalize_items_keys in Hin.
        destruct Hin as [[]|(key & Hkey & ->)]. now apply in_map.
    + intros Hnd. rewrite (normalize_items_distinct V filters [] Hnd).
      cbn [app]. unfold convert_items. now rewrite length_map.
Qed.

Lemma normalize_filters_size_witness :
  let filters := [("instance_type", JStr "t3.micro");
                  ("instanceType", JStr "m5.large")] in
  filters <> []
  /\ normalize_filters_for_service (Some filters) <> []
  /\ List.length (normalize_filters_for_service (Some filters)) <= 2.
Proof.
  intros filters.
  destruct (normalize_filters_size json filters) as (_ & Hle & Hne & _).
  assert (Hfilters : filters <> []) by discriminate.
  split; [exact Hfilters|]. split; [exact (Hne Hfilters)|exact Hle].
Defined.

(** X6. Normalisation invents nothing: every entry of the result carries
    the value of an input entry whose key converts to the entry's name. *)
Theorem normalize_filters_values_from_input (V : Type)
    (filters : option (PyDict.dict V)) (name : string) (value : V) :
  In (name, value) (normalize_filters_for_service filters) ->
  exists items key,
    filters = Some items /\ In (key, value) items
    /\ _snake_to_camel key = name.
Proof.
  destruct filters as [items|]; [|contradiction].
  rewrite normalize_some. intros Hin.
  apply normalize_items_member in Hin.
  destruct Hin as [[]|(key & Hkey & Hname)].
  now exists items, key.
Qed.

Lemma normalize_filters_values_from_input_witness :
  let filters := [("instance_type", JStr "t3.micro");
                  ("instanceType", JStr "m5.large")] in
  In ("instanceType", JStr "m5.large")
     (normalize_filters_for_service (Some filters))
  /\ exists items key,
      Some filters = Some items /\ In (key, JStr "m5.large") items
      /\ _snake_to_camel key = "instanceType".
Proof.
  intros filters.
  assert (Hin : In ("instanceType", JStr "m5.large")
                   (normalize_filters_for_service (Some filters)))
    by (now left).
  split; [exact Hin|].
  exact (normalize_filters_values_from_input json (Some filters)
           "instanceType" (JStr "m5.large") Hin).
Defined.

(** X7. A mapping whose keys are distinct and contain no underscore is
    returned as it is. *)
Theorem normalize_filters_identity (V : Type) (filters : PyDict.dict V) :
  PyDict.wf filters ->
  Forall separator_free (PyDict.keys filters) ->
  normalize_filters_for_service (Some filters) = filters.
Proof.
  intros Hwf Hfree. rewrite normalize_some.
  apply (normalize_items_fixed V filters []); assumption.
Qed.

Lemma normalize_filters_identity_witness :
  let filters := [("instanceType", JStr "t3.micro");
                  ("location", JStr "EU (Ireland)")] in
  PyDict.wf filters
  /\ Forall separator_free (PyDict.keys filters)
  /\ normalize_filters_for_service (Some filters) = filters.
Proof.
  intros filters.
  assert (Hwf : PyDict.wf filters).
  { repeat constructor; simpl; intuition discriminate. }
  assert (Hfree : Forall separator_free (PyDict.keys filters))
    by (repeat constructor).
  split; [exact Hwf|]. split; [exact Hfree|].
  exact (normalize_filters_identity json filters Hwf Hfree).
Defined.

(** ** The handler: outcomes *)

Lemma first_unknown_after_known (known rest : list string) (region : string) :
  Forall known_region known ->
  PyDict.get REGION_MAPPING region = None ->
  first_unknown (known ++ region :: rest) = Some region.
Proof.
  unfold first_unknown, known_region. intros Hknown Hget.
  induction Hknown as [|r rs Hr _ IH]; cbn [app find].
  - unfold PyDict.mem. now rewrite Hget.
  - now rewrite Hr.
Qed.

(** X8. The [PricingError] names the first code of the request, in request
    order, that is absent from the region table. *)
Theorem unknown_region_reports_first (env : Env) (event : Request)
    (w : World) (known rest : list string) (region : string) :
  regions_of event = known ++ region :: rest ->
  Forall known_region known ->
  PyDict.get REGION_MAPPING region = None ->
  handler env event w
  = (inl (PricingError ("Unknown region: " ++ region)%string), w).
Proof.
  intros Hregions Hknown Hget. apply handler_unknown_region.
  rewrite Hregions. now apply first_unknown_after_known.
Qed.

Lemma unknown_region_reports_first_witness :
  let event :=
    sample_event (Some ["eu-west-1"; "mars-north-1"; "venus-south-2"]) None in
  regions_of event = ["eu-west-1"] ++ "mars-north-1" :: ["venus-south-2"]
  /\ Forall known_region ["eu-west-1"]
  /\ PyDict.get REGION_MAPPING "mars-north-1" = None
  /\ handler sample_env event fresh_world
     = (inl (PricingError "Unknown region: mars-north-1"), fresh_world).
Proof.
  intros event.
  assert (Hknown : Forall known_region ["eu-west-1"]) by (repeat constructor).
  split; [reflexivity|]. split; [exact Hknown|]. split; [reflexivity|].
  exact (unknown_region_reports_first sample_env event fresh_world
           ["eu-west-1"] ["venus-south-2"] "mars-north-1"
           eq_refl Hknown eq_refl).
Defined.

Section OutcomeFacts.
Variable env : Env.

(** The query loop up to the first pass that serves something else than a
    document: the passes before it are complete, its own query has been
    issued, the later regions are never queried. *)
Lemma query_regions_stops (service_code : string)
    (filters : PyDict.dict json) (max_records : Z) (names : list string)
    (acc : list json) (w : World) :
  forallb (fun pass =>
             forallb (is_document env)
               (fetched_documents env service_code filters max_records pass))
          (passes (List.length (api_calls w)) names) = false ->
  exists w' k pass,
    query_regions env service_code filters max_records names acc w
    = (inl TypeError, w')
    /\ nth_error (passes (List.length (api_calls w)) names) k = Some pass
    /\ forallb (is_document env)
         (fetched_documents env service_code filters max_records pass)
       = false
    /\ forallb (fun pass =>
                  forallb (is_document env)
                    (fetched_documents env service_code filters max_records
                                       pass))
               (firstn k (passes (List.length (api_calls w)) names)) = true
    /\ api_calls w'
       = api_calls w
         ++ firstn (S k)
              (map (region_query service_code filters max_records) names)
    /\ put_files w' = put_files w
    /\ uuid_draws w' = uuid_draws w.
Proof.
  revert acc w. induction names as [|name names IH]; intros acc w Hbad.
  - discriminate.
  - rewrite passes_cons in *. cbn [forallb] in Hbad.
    cbn [query_regions]. unfold bind at 1. cbn [paginate].
    unfold bind at 1. rewrite collect_pages_spec.
    unfold PyDict.copy.
    fold (pinned_filters filters name).
    fold (region_query service_code filters max_records name).
    destruct (forallb (is_document env)
                (fetched_documents env service_code filters max_records
                   (List.length (api_calls w), name))) eqn:Hpass.
    + cbn [andb] in Hbad.
      unfold fetched_documents in Hpass. cbn [fst snd] in Hpass.
      rewrite Hpass.
      edestruct IH as (w' & k & pass & -> & Hnth & Hk & Hbefore & Hcalls
                       & Hfiles & Hdraws).
      * cbn [api_calls add_warnings]. rewrite length_app, Nat.add_1_r.
        exact Hbad.
      * cbn [api_calls add_warnings put_files uuid_draws] in *.
        rewrite length_app, Nat.add_1_r in Hnth, Hbefore.
        exists w', (S k), pass. split; [reflexivity|].
        split; [exact Hnth|]. split; [exact Hk|].
        split.
        { cbn [firstn forallb]. unfold fetched_documents at 1.
          cbn [fst snd]. now rewrite Hpass, Hbefore. }
        split; [|now split].
        rewrite Hcalls, <- app_assoc. reflexivity.
    + unfold fetched_documents in Hpass. cbn [fst snd] in Hpass.
      rewrite Hpass.
      eexists. exists 0, (List.length (api_calls w), name).
      split; [reflexivity|]. split; [reflexivity|].
      split; [unfold fetched_documents; cbn [fst snd]; exact Hpass|].
      split; [reflexivity|]. split; [reflexivity|]. now split.
Qed.

Lemma handler_type_error_stops (event : Request) (w : World) :
  Forall known_region (regions_of event) ->
  regions_of event <> [] ->
  serves_documents env event w = false ->
  exists w' k pass,
    handler env event w = (inl TypeError, w')
    /\ nth_error (passes_of event w) k = Some pass
    /\ forallb (is_document env) (documents_of env event pass) = false
    /\ forallb (fun pass =>
                  forallb (is_document env) (documents_of env event pass))
               (firstn k (passes_of event w)) = true
    /\ api_calls w' = api_calls w ++ firstn (S k) (queries_of event)
    /\ put_files w' = put_files w
    /\ uuid_draws w' = uuid_draws w.
Proof.
  intros Hknown Hne Hdocs. apply first_unknown_none in Hknown.
  unfold handler.
  fold (regions_of event) (filters_of event) (max_records_of event).
  erewrite bind_ok; [|now rewrite resolve_regions_spec, Hknown].
  cbn [app].
  erewrite bind_ok; [|apply merge_location_spec].
  fold (applied_filters event).
  erewrite bind_ok;
    [|apply regions_to_query_spec; now destruct (regions_of event)].
  destruct (query_regions_stops (req_service_code event)
              (applied_filters event) (max_records_of event)
              (map display_name (regions_of event)) [] w Hdocs)
    as (w' & k & pass & Hrun & Hrest).
  exists w', k, pass. split; [now apply bind_fail|exact Hrest].
Qed.

End OutcomeFacts.



(** X10. A served document that decodes to a JSON value other than an
    object is fatal: the invocation ends in a [TypeError] without a file.
    The passes before the one that served it were complete and their
    queries, and its own, have been issued; the regions after it are never
    queried. *)
Theorem non_object_document_is_fatal (env : Env) (event : Request)
    (w : World) :
  Forall known_region (regions_of event) ->
  regions_of event <> [] ->
  (exists pass doc value,
      In pass (passes_of event w) /\ In doc (documents_of env event pass)
      /\ json_loads env doc = inr value
      /\ forall members, value <> JObj members) ->
  exists w' k pass,
    handler env event w = (inl TypeError, w')
    /\ put_files w' = put_files w
    /\ nth_error (passes_of event w) k = Some pass
    /\ k < List.length (regions_of event)
    /\ (exists doc, In doc (documents_of env event pass)
                    /\ is_document env doc = false)
    /\ (forall j earlier doc,
           j < k -> nth_error (passes_of event w) j = Some earlier ->
           In doc (documents_of env event earlier) ->
           well_formed env doc \/ malformed env doc)
    /\ api_calls w' = api_calls w ++ firstn (S k) (queries_of event)
    /\ List.length (api_calls w') = List.length (api_calls w) + S k.
Proof.
  intros Hknown Hne (bad & doc & value & Hpass & Hdoc & Hload & Hvalue).
  assert (Hdocs : serves_documents env event w = false).
  { destruct (serves_documents env event w) eqn:E; [|reflexivity].
    destruct (proj1 (serves_documents_iff env event w) E bad doc Hpass Hdoc)
      as [(members & Hm)|(e & He)]; rewrite Hload in *.
    - inversion Hm. now destruct (Hvalue members).
    - discriminate. }
  destruct (handler_type_error_stops env event w Hknown Hne Hdocs)
    as (w' & k & pass & Hrun & Hnth & Hk & Hbefore & Hcalls & Hfiles & _).
  assert (Hlt : k < List.length (regions_of event)).
  { assert (H : k < List.length (passes_of event w))
      by (apply nth_error_Some; congruence).
    unfold passes_of, passes in H.
    rewrite length_combine, length_seq, length_map, Nat.min_id in H.
    exact H. }
  exists w', k, pass. repeat split; auto.
  - destruct (forallb_forall (is_document env) (documents_of env event pass))
      as [_ Hall].
    destruct (existsb (fun d => negb (is_document env d))
                      (documents_of env event pass)) eqn:Hex.
    + apply existsb_exists in Hex as (d & Hin & Hd).
      exists d. split; [exact Hin|]. now destruct (is_document env d).
    + rewrite Hall in Hk; [discriminate|].
      intros d Hin. destruct (is_document env d) eqn:Ed; [reflexivity|].
      assert (Ht : existsb (fun d => negb (is_document env d))
                           (documents_of env event pass) = true).
      { apply existsb_exists. exists d. split; [exact Hin|].
        now rewrite Ed. }
      congruence.
  - intros j earlier d Hj Hearlier Hin. apply is_document_iff.
    rewrite forallb_forall in Hbefore.
    assert (Hmem : In earlier (firstn k (passes_of event w))).
    { apply (nth_error_In _ j). rewrite nth_error_firstn.
      apply Nat.ltb_lt in Hj. now rewrite Hj. }
    specialize (Hbefore earlier Hmem). rewrite forallb_forall in Hbefore.
    auto.
  - rewrite Hcalls, length_app, length_firstn. unfold queries_of.
    rewrite !length_map. lia.
Qed.

Lemma non_object_document_is_fatal_witness :
  let event := sample_event (Some ["us-east-1"; "eu-west-1"]) None in
  Forall known_region (regions_of event)
  /\ regions_of event <> []
  /\ exists w',
      handler scalar_env event fresh_world = (inl TypeError, w')
      /\ put_files w' = []
      /\ List.length (api_calls w') = 1.
Proof.
  intros event.
  assert (Hknown : Forall known_region (regions_of event))
    by (repeat constructor).
  assert (Hne : regions_of event <> []) by discriminate.
  assert (Hbad : exists pass doc value,
             In pass (passes_of event fresh_world)
             /\ In doc (documents_of scalar_env event pass)
             /\ json_loads scalar_env doc = inr value
             /\ forall members, value <> JObj members).
  { exists (0, "US East (N. Virginia)"), "5", (JNum "5").
    split; [now left|]. split; [right; now left|].
    split; [reflexivity|discriminate]. }
  destruct (non_object_document_is_fatal scalar_env event fresh_world
              Hknown Hne Hbad)
    as (w' & k & pass & Hrun & Hfiles & Hnth & _ & _ & Hearlier & _ & Hlen).
  split; [exact Hknown|]. split; [exact Hne|].
  exists w'. split; [exact Hrun|]. split; [exact Hfiles|].
  destruct k as [|k]; [exact Hlen|].
  exfalso.
  destruct (Hearlier 0 (0, "US East (N. Virginia)") "5"
              (Nat.lt_0_succ k) eq_refl (or_intror (or_introl eq_refl)))
    as [(members & Hm)|(e & He)]; discriminate.
Defined.

(** ** The handler: successful invocations *)



(** X12. The three failures of the handler and their causes: an
    [IndexError] exactly for an empty region list, a [PricingError] exactly
    when some region code is absent from the table, a [TypeError] exactly
    when the regions are fine and some served document decodes to something
    else than an object. *)
Theorem handler_failure_causes (env : Env) (event : Request) (w : World) :
  ((exists w', handler env event w = (inl IndexError, w'))
   <-> regions_of event = [])
  /\ ((exists msg w', handler env event w = (inl (PricingError msg), w'))
      <-> exists region, In region (regions_of event)
                         /\ PyDict.get REGION_MAPPING region = None)
  /\ ((exists w', handler env event w = (inl TypeError, w'))
      <-> Forall known_region (regions_of event)
          /\ regions_of event <> []
          /\ serves_documents env event w = false).
Proof.
  assert (Hknown_not_unknown :
            forall region, Forall known_region (regions_of event) ->
                           In region (regions_of event) ->
                           PyDict.get REGION_MAPPING region = None -> False).
  { intros region Hk Hin Hget. rewrite Forall_forall in Hk.
    specialize (Hk region Hin). unfold known_region, PyDict.mem in Hk.
    rewrite Hget in Hk. discriminate. }
  destruct (handler_cases env event w)
    as [(region & Hu)|[Hnil|[(Hk & Hne & Hd)|(Hk & Hne & Hd)]]].
  - pose proof (handler_unknown_region env _ w _ Hu) as Hrun.
    destruct (first_unknown_some _ _ Hu) as (Hin & Hget).
    split; [|split]; split.
    + intros (w' & H). congruence.
    + intros Hnil. rewrite Hnil in Hin. destruct Hin.
    + intros _. now exists region.
    + intros _. eauto.
    + intros (w' & H). congruence.
    + intros (Hk & _). destruct (Hknown_not_unknown region Hk Hin Hget).
  - pose proof (handler_no_region env _ w Hnil) as Hrun.
    split; [|split]; split.
    + auto.
    + eauto.
    + intros (msg & w' & H). congruence.
    + intros (region & Hin & _). rewrite Hnil in Hin. destruct Hin.
    + intros (w' & H). congruence.
    + intros (_ & Hne & _). contradiction.
  - pose proof (handler_success env _ _ Hk Hne Hd) as Hrun.
    split; [|split]; split.
    + intros (w' & H). congruence.
    + intros Hnil. contradiction.
    + intros (msg & w' & H). congruence.
    + intros (region & Hin & Hget).
      destruct (Hknown_not_unknown region Hk Hin Hget).
    + intros (w' & H). congruence.
    + intros (_ & _ & Hd'). congruence.
  - destruct (handler_type_error env _ _ Hk Hne Hd) as (w1 & Hrun & _).
    split; [|split]; split.
    + intros (w' & H). congruence.
    + intros Hnil. contradiction.
    + intros (msg & w' & H). congruence.
    + intros (region & Hin & Hget).
      destruct (Hknown_not_unknown region Hk Hin Hget).
    + auto.
    + eauto.
Qed.

Lemma handler_failure_causes_witness :
  let event := sample_event (Some []) None in
  regions_of event = []
  /\ exists w', handler sample_env event fresh_world = (inl IndexError, w').
Proof.
  intros event.
  destruct (handler_failure_causes sample_env event fresh_world)
    as ((_ & Hindex) & _).
  split; [reflexivity|exact (Hindex eq_refl)].
Defined.

(** X13. When the request supplies a non-empty output path, a successful
    invocation uses it as it is for the file and the response, and draws no
    token. *)
Theorem supplied_path_is_used (env : Env) (event : Request) (w w' : World)
    (resp : Response) (path : string) :
  req_result_file_path event = Some path ->
  path <> EmptyString ->
  handler env event w = (inr resp, w') ->
  resp_result_file_path resp = path
  /\ uuid_draws w' = uuid_draws w
  /\ exists file, put_files w' = put_files w ++ [file]
                  /\ file_path file = path.
Proof.
  intros Hpath Hne Hrun.
  apply handler_success_inv in Hrun as (_ & _ & _ & -> & ->).
  unfold final_world, success_response, persisted_file, output_path.
  cbn [resp_result_file_path uuid_draws put_files].
  rewrite Hpath. destruct path as [|c p]; [congruence|].
  cbn [truthy]. split; [reflexivity|]. split; [reflexivity|].
  eexists. split; reflexivity.
Qed.

Lemma supplied_path_is_used_witness :
  let resp := success_response bulk_env bulk_event fresh_world in
  let w' := final_world bulk_env bulk_event fresh_world in
  req_result_file_path bulk_event = Some "/out/s3.json"
  /\ handler bulk_env bulk_event fresh_world = (inr resp, w')
  /\ resp_result_file_path resp = "/out/s3.json"
  /\ uuid_draws w' = 0.
Proof.
  intros resp w'.
  assert (Hrun : handler bulk_env bulk_event fresh_world = (inr resp, w'))
    by (vm_compute; reflexivity).
  assert (Hne : "/out/s3.json" <> EmptyString) by discriminate.
  destruct (supplied_path_is_used bulk_env bulk_event fresh_world w' resp
              "/out/s3.json" eq_refl Hne Hrun) as (Hresp & Hdraws & _).
  split; [reflexivity|]. split; [exact Hrun|].
  split; [exact Hresp|exact Hdraws].
Defined.

(** X14. The response, the persisted envelope and the file metadata of a
    successful invocation agree: same service code, same regions (the
    region codes of the request, the default when it has none, not the
    display names), same applied filters; the file type is
    [ratio::file]. *)
Theorem response_and_file_agree (env : Env) (event : Request) (w w' : World)
    (resp : Response) :
  handler env event w = (inr resp, w') ->
  exists file,
    put_files w' = put_files w ++ [file]
    /\ file_type file = "ratio::file"
    /\ resp_service_code resp = req_service_code event
    /\ detail_service_code (data file) = req_service_code event
    /\ meta_service_code (metadata file) = req_service_code event
    /\ resp_regions_queried resp
       = match req_regions event with Some r => r | None => ["us-east-1"] end
    /\ detail_regions_queried (data file) = resp_regions_queried resp
    /\ meta_regions (metadata file) = resp_regions_queried resp
    /\ detail_filters_applied (data file) = resp_filters_applied resp.
Proof.
  intros Hrun.
  apply handler_success_inv in Hrun as (_ & _ & _ & -> & ->).
  exists (persisted_file env event w). repeat split.
Qed.

Lemma response_and_file_agree_witness :
  let event := sample_event None None in
  let resp := success_response sample_env event fresh_world in
  let w' := final_world sample_env event fresh_world in
  handler sample_env event fresh_world = (inr resp, w')
  /\ resp_regions_queried resp = ["us-east-1"]
  /\ exists file, put_files w' = [file]
                  /\ meta_regions (metadata file) = ["us-east-1"].
Proof.
  intros event resp w'.
  assert (Hrun : handler sample_env event fresh_world = (inr resp, w'))
    by (vm_compute; reflexivity).
  destruct (response_and_file_agree sample_env event fresh_world w' resp Hrun)
    as (file & Hfiles & _ & _ & _ & _ & Hregions & _ & Hmeta & _).
  split; [exact Hrun|]. split; [exact Hregions|].
  exists file. split; [exact Hfiles|]. now rewrite Hmeta.
Defined.

(** ** The handler: what is sent and what is stored *)

Lemma wf_member_get (V : Type) (d : PyDict.dict V) (k : string) (v : V) :
  PyDict.wf d -> In (k, v) d -> PyDict.get d k = Some v.
Proof.
  unfold PyDict.wf. induction d as [|[k0 v0] d IH]; simpl; [contradiction|].
  intros Hwf Hin. inversion Hwf as [|? ? Hout Hrest]; subst.
  destruct Hin as [H|Hin].
  - inversion H; subst. now rewrite String.eqb_refl.
  - destruct (String.eqb_spec k0 k) as [->|Hne]; [|now apply IH].
    destruct Hout. apply in_map_iff. now exists (k, v).
Qed.

Lemma build_api_filters_fields (d : PyDict.dict json) :
  map Field (build_api_filters d) = PyDict.keys d.
Proof. unfold build_api_filters, PyDict.keys. now rewrite map_map. Qed.

Lemma Forall2_map_r {A B} (R : A -> B -> Prop) (f : A -> B) (l : list A) :
  (forall x, In x l -> R x (f x)) -> Forall2 R l (map f l).
Proof.
  induction l as [|x l IH]; simpl; intros H; constructor; auto.
Qed.

(** X15. Every query of a successful invocation is for the request's
    service code; each of its filters is a [TERM_MATCH] whose field name
    contains no underscore; no field occurs twice; and there is a
    [location] filter, whose value is the display name of the query's
    region. *)
Theorem issued_filters_well_formed (env : Env) (event : Request)
    (w w' : World) (resp : Response) :
  handler env event w = (inr resp, w') ->
  exists calls,
    api_calls w' = api_calls w ++ calls
    /\ Forall2
         (fun region q =>
            ServiceCode q = req_service_code event
            /\ Forall (fun f => Type_ f = "TERM_MATCH"
                                /\ separator_free (Field f)) (Filters q)
            /\ NoDup (map Field (Filters q))
            /\ In "location" (map Field (Filters q))
            /\ (forall f, In f (Filters q) -> Field f = "location" ->
                          Value f = JStr (display_name region)))
         (regions_of event) calls.
Proof.
  intros Hrun.
  apply handler_success_inv in Hrun as (_ & _ & _ & _ & ->).
  exists (queries_of event). split; [reflexivity|].
  rewrite queries_of_query. apply Forall2_map_r. intros region _.
  cbn [ServiceCode Filters].
  set (normalized := normalize_filters_for_service (Some (filters_of event))).
  set (pinned := PyDict.set normalized "location"
                            (JStr (display_name region))).
  assert (Hwf : PyDict.wf pinned)
    by (apply PyDictFacts.wf_set, normalize_wf).
  split; [reflexivity|]. split; [|split; [|split]].
  - apply Forall_forall. intros f Hf. unfold build_api_filters in Hf.
    apply in_map_iff in Hf as ([k v] & <- & Hkv). split; [reflexivity|].
    cbn [Field fst].
    assert (Hk : In k (PyDict.keys pinned))
      by (apply in_map_iff; now exists (k, v)).
    apply PyDictFacts.keys_set in Hk as [->|Hk]; [reflexivity|].
    pose proof (normalize_keys_free json (Some (filters_of event))) as Hfree.
    rewrite Forall_forall in Hfree. now apply Hfree.
  - rewrite build_api_filters_fields. exact Hwf.
  - rewrite build_api_filters_fields. apply PyDictFacts.keys_set. now left.
  - intros f Hf Hfield. unfold build_api_filters in Hf.
    apply in_map_iff in Hf as ([k v] & <- & Hkv).
    cbn [Field Value fst snd] in *. subst k.
    apply (wf_member_get json pinned _ _ Hwf) in Hkv.
    unfold pinned in Hkv. rewrite PyDictFacts.get_set_same in Hkv.
    congruence.
Qed.

Lemma issued_filters_well_formed_witness :
  let filters := [("location", JStr "Mars"); ("instance_type", JStr "t3")] in
  let event := sample_event (Some ["ca-central-1"]) (Some filters) in
  let resp := success_response sample_env event fresh_world in
  let w' := final_world sample_env event fresh_world in
  handler sample_env event fresh_world = (inr resp, w')
  /\ exists calls,
      api_calls w' = calls
      /\ Forall2 (fun region q => NoDup (map Field (Filters q)))
                 ["ca-central-1"] calls.
Proof.
  intros filters event resp w'.
  assert (Hrun : handler sample_env event fresh_world = (inr resp, w'))
    by (vm_compute; reflexivity).
  destruct (issued_filters_well_formed sample_env event fresh_world w' resp
              Hrun) as (calls & Hcalls & Hall).
  split; [exact Hrun|]. exists calls. split; [exact Hcalls|].
  eapply Forall2_impl; [|exact Hall]. cbv beta. intuition.
Defined.

Lemma get_value_in (V : Type) (d : PyDict.dict V) (k : string) (v : V) :
  PyDict.get d k = Some v -> In v (map snd d).
Proof.
  induction d as [|[k0 v0] d IH]; simpl; [discriminate|].
  destruct (String.eqb k0 k); [intros [= ->]; now left|].
  intros H. right. auto.
Qed.

Lemma get_injective (V : Type) (d : PyDict.dict V) (k1 k2 : string) (v : V) :
  NoDup (map snd d) ->
  PyDict.get d k1 = Some v -> PyDict.get d k2 = Some v -> k1 = k2.
Proof.
  induction d as [|[k0 v0] d IH]; simpl; [discriminate|].
  intros Hnd H1 H2. inversion Hnd as [|? ? Hout Hrest]; subst.
  destruct (String.eqb_spec k0 k1) as [<-|Hne1];
    destruct (String.eqb_spec k0 k2) as [<-|Hne2]; try reflexivity.
  - injection H1 as <-. destruct Hout. eapply get_value_in; eauto.
  - injection H2 as <-. destruct Hout. eapply get_value_in; eauto.
  - now apply IH.
Qed.

(** X16. The region table has no code twice and no display name twice: two
    known region codes with the same display name are the same code, so the
    [queryRegion] of a record identifies the region code it was fetched
    for. *)
Theorem region_table_injective (region1 region2 : string) :
  known_region region1 -> known_region region2 ->
  display_name region1 = display_name region2 ->
  region1 = region2.
Proof.
  unfold known_region, PyDict.mem, display_name.
  destruct (PyDict.get REGION_MAPPING region1) as [n1|] eqn:E1;
    [|discriminate].
  destruct (PyDict.get REGION_MAPPING region2) as [n2|] eqn:E2;
    [|discriminate].
  intros _ _ <-. apply (get_injective string REGION_MAPPING _ _ n1);
    [|assumption|assumption].
  unfold REGION_MAPPING. cbn [map snd].
  repeat (constructor; [cbn [In]; intuition discriminate|]). constructor.
Qed.

Lemma region_table_injective_witness :
  known_region "eu-west-2"
  /\ display_name "eu-west-2" = "Europe (London)"
  /\ "eu-west-2" = "eu-west-2".
Proof.
  assert (Hknown : known_region "eu-west-2") by reflexivity.
  split; [exact Hknown|]. split; [reflexivity|].
  exact (region_table_injective "eu-west-2" "eu-west-2" Hknown Hknown
           eq_refl).
Defined.

(** X17. Tagging keeps the document: a record of the persisted aggregate
    has every member of the document it was decoded from, under the same
    name and with the same value, except [queryRegion], which holds the
    display name of the pass; at most one member is added. *)
Theorem tagging_keeps_members (env : Env) (event : Request) (w w' : World)
    (resp : Response) :
  handler env event w = (inr resp, w') ->
  exists file,
    put_files w' = put_files w ++ [file]
    /\ forall record,
        In record (detail_pricing_records (data file)) ->
        exists pass doc members tagged_members,
          In pass (passes_of event w)
          /\ In doc (documents_of env event pass)
          /\ json_loads env doc = inr (JObj members)
          /\ record = JObj tagged_members
          /\ PyDict.get tagged_members "queryRegion" = Some (JStr (snd pass))
          /\ (forall key, key <> "queryRegion" ->
                          PyDict.get tagged_members key
                          = PyDict.get members key)
          /\ List.length members <= List.length tagged_members
             <= S (List.length members).
Proof.
  intros Hrun.
  apply handler_success_inv in Hrun as (_ & _ & _ & _ & ->).
  exists (persisted_file env event w). split; [reflexivity|].
  cbn [persisted_file data detail_pricing_records].
  intros record Hrecord. apply aggregate_member in Hrecord.
  destruct Hrecord as (pass & doc & members & Hpass & Hdoc & Hload & ->).
  exists pass, doc, members,
    (PyDict.set members "queryRegion" (JStr (snd pass))).
  repeat split; auto.
  - apply PyDictFacts.get_set_same.
  - intros key Hkey. apply PyDictFacts.get_set_other. congruence.
  - apply (set_length json).
  - apply (set_length json).
Qed.

Lemma tagging_keeps_members_witness :
  let event := sample_event (Some ["eu-north-1"]) None in
  let resp := success_response sample_env event fresh_world in
  let w' := final_world sample_env event fresh_world in
  handler sample_env event fresh_world = (inr resp, w')
  /\ exists file,
      put_files w' = [file]
      /\ List.length (detail_pricing_records (data file)) = 2.
Proof.
  intros event resp w'.
  assert (Hrun : handler sample_env event fresh_world = (inr resp, w'))
    by (vm_compute; reflexivity).
  destruct (tagging_keeps_members sample_env event fresh_world w' resp Hrun)
    as (file & Hfiles & _).
  split; [exact Hrun|]. exists file. split; [exact Hfiles|].
  cbn [put_files fresh_world app] in Hfiles.
  assert (Hfile : file = persisted_file sample_env event fresh_world)
    by (injection Hfiles as <-; reflexivity).
  now rewrite Hfile.
Defined.

(** ** The handler: paging *)

Section PagingFacts.
Variables env1 env2 : Env.
Hypothesis same_decoder : forall doc, json_loads env1 doc = json_loads env2 doc.
Hypothesis same_documents :
  forall n q, List.concat (catalog env1 n q) = List.concat (catalog env2 n q).

Lemma is_document_same (docs : list string) :
  forallb (is_document env1) docs = forallb (is_document env2) docs.
Proof.
  induction docs as [|doc docs IH]; simpl; [reflexivity|].
  unfold is_document at 1 3. now rewrite same_decoder, IH.
Qed.

Lemma tagged_records_same (region_name : string) (docs : list string) :
  tagged_records env1 region_name docs = tagged_records env2 region_name docs.
Proof.
  unfold tagged_records. apply flat_map_ext. intros doc.
  unfold tagged. now rewrite same_decoder.
Qed.

Lemma documents_prefix_same (docs : list string) :
  documents_prefix env1 docs = documents_prefix env2 docs.
Proof.
  induction docs as [|doc docs IH]; simpl; [reflexivity|].
  unfold is_document. now rewrite same_decoder, IH.
Qed.

Lemma decode_warnings_same (docs : list string) :
  decode_warnings env1 docs = decode_warnings env2 docs.
Proof.
  unfold decode_warnings. apply flat_map_ext. intros doc.
  unfold decode_warning. now rewrite same_decoder.
Qed.

Lemma query_regions_same (service_code : string)
    (filters : PyDict.dict json) (max_records : Z) (names : list string)
    (acc : list json) (w : World) :
  query_regions env1 service_code filters max_records names acc w
  = query_regions env2 service_code filters max_records names acc w.
Proof.
  revert acc w. induction names as [|name names IH]; intros acc w;
    [reflexivity|].
  cbn [query_regions]. unfold bind at 1 3. cbn [paginate].
  unfold bind at 1 2. rewrite !collect_pages_spec, same_documents.
  rewrite is_document_same, tagged_records_same, documents_prefix_same,
    decode_warnings_same.
  destruct (forallb (is_document env2) _); [apply IH|reflexivity].
Qed.

End PagingFacts.

(** X18. Page boundaries do not matter: two environments that decode alike,
    generate the same tokens, share the working directory, and whose
    catalogs serve to every pass the same documents in the same order,
    however cut into pages, give the same outcome and leave the same
    world. *)
Theorem paging_does_not_matter (env1 env2 : Env) (event : Request)
    (w : World) :
  (forall doc, json_loads env1 doc = json_loads env2 doc) ->
  (forall n q,
      List.concat (catalog env1 n q) = List.concat (catalog env2 n q)) ->
  (forall n, uuid4 env1 n = uuid4 env2 n) ->
  working_directory env1 = working_directory env2 ->
  handler env1 event w = handler env2 event w.
Proof.
  intros Hloads Hdocs Huuid Hwd. unfold handler, bind.
  destruct (resolve_regions _ _ w) as [[e|names] w1]; [reflexivity|].
  destruct (_ w1) as [[e|final_filters] w2]; [reflexivity|].
  destruct (_ w2) as [[e|regions_to_query] w3]; [reflexivity|].
  rewrite (query_regions_same env1 env2 Hloads Hdocs).
  destruct (query_regions env2 _ _ _ _ _ w3) as [[e|records] w4];
    [reflexivity|].
  unfold draw_uuid4. rewrite Hwd.
  destruct (negb _); [|reflexivity]. now rewrite Huuid.
Qed.

Lemma paging_does_not_matter_witness :
  let unpaged :=
    {| json_loads := sample_loads;
       catalog := fun n q => [List.concat (sample_catalog n q)];
       uuid4 := uuid4 sample_env;
       working_directory := "/work" |} in
  let event := sample_event (Some ["us-east-1"; "us-west-1"]) None in
  handler sample_env event fresh_world = handler unpaged event fresh_world.
Proof.
  intros unpaged event.
  apply (paging_does_not_matter sample_env unpaged event fresh_world).
  - reflexivity.
  - intros n q. cbn [catalog sample_env unpaged List.concat].
    now rewrite app_nil_r.
  - reflexivity.
  - reflexivity.
Defined.
